(** * cdp-cli: command correlation and event aggregation of [CDPContext]

    A shallow embedding of [src/context.ts] (class [CDPContext]) and of the
    type filter of [listConsole], followed by the properties the
    specification states about them.

    Conventions of the embedding:
    - a JavaScript value is a [value]; a property that is absent reads as
      [VUndef], exactly as in the language;
    - a JavaScript number is an unbounded integer ([VNum]) or [VNaN];
      fractions and the precision of floating point are not modelled;
    - a statement that may throw returns a [completion];
    - [Date.now()] and [Math.random()] are inputs of the step that calls
      them. *)

From stdpp Require Import base strings list gmap pretty.

#[local] Set Warnings "-register-all".
Local Open Scope Z_scope.
Local Open Scope string_scope.
Local Open Scope list_scope.

(** ** JavaScript values *)

Inductive value : Type :=
  | VUndef
  | VNull
  | VBool (b : bool)
  | VNum (n : Z)
  | VNaN
  | VStr (s : string)
  | VArr (elems : list value)
  | VObj (props : list (string * value)).

Inductive exn : Type :=
  | SyntaxError
  | TypeError
  | Error (message : string).

(** The outcome of running a statement: it completes, or it throws. *)
Inductive completion (A : Type) : Type :=
  | Normal (a : A)
  | Throw (e : exn).
Arguments Normal {A} a.
Arguments Throw {A} e.

#[global] Instance completion_ret : MRet completion := @Normal.
#[global] Instance completion_bind : MBind completion :=
  fun A B f m => match m with Normal a => f a | Throw e => Throw e end.

Definition completes {A} (c : completion A) : bool :=
  match c with Normal _ => true | Throw _ => false end.

(** Own properties of an object literal, first binding first. *)
Fixpoint lookup_prop (name : string) (props : list (string * value)) : option value :=
  match props with
  | [] => None
  | (k, v) :: rest => if String.eqb k name then Some v else lookup_prop name rest
  end.

(** [v.name]: a [TypeError] on [undefined] and [null]; the own property of an
    object; [undefined] on every other value (none of the names read by the
    program is inherited from a prototype). *)
Definition get (v : value) (name : string) : completion value :=
  match v with
  | VUndef | VNull => Throw TypeError
  | VObj props => Normal (default VUndef (lookup_prop name props))
  | _ => Normal VUndef
  end.

(** ToBoolean. *)
Definition truthy (v : value) : bool :=
  match v with
  | VUndef | VNull | VNaN => false
  | VBool b => b
  | VNum n => negb (n =? 0)%Z
  | VStr s => negb (String.eqb s "")
  | VArr _ | VObj _ => true
  end.

(** [a || b]. *)
Definition js_or (a b : value) : value := if truthy a then a else b.

(** [v === 'lit'] and [v === n] for a string and a number on the right. *)
Definition strict_eq_str (v : value) (lit : string) : bool :=
  match v with VStr s => String.eqb s lit | _ => false end.

Definition strict_eq_num (v : value) (n : Z) : bool :=
  match v with VNum m => (m =? n)%Z | _ => false end.

(** [v !== undefined]. *)
Definition is_defined (v : value) : bool :=
  match v with VUndef => false | _ => true end.

(** SameValueZero, the key equality of [Map]: primitives compare by value;
    an array or object is a reference, and two values obtained from
    [JSON.parse] are never the same reference. *)
Definition sameValueZero (a b : value) : bool :=
  match a, b with
  | VUndef, VUndef | VNull, VNull | VNaN, VNaN => true
  | VBool x, VBool y => Bool.eqb x y
  | VNum x, VNum y => (x =? y)%Z
  | VStr x, VStr y => String.eqb x y
  | _, _ => false
  end.

(** What the host provides and the program only calls: the coercions of a
    non-number to a number, of a non-string to a string, and
    [JSON.stringify]. *)
Class JSRuntime : Type := {
  ToNumber : value -> value;
  ToString : value -> string;
  JSON_stringify : value -> string
}.

(** A host to run the examples on; the theorems hold for every host.
    [ToString] and [JSON_stringify] are exact on [null], booleans, integers
    of magnitude below 10^21 and strings that need no escaping, and on the
    arrays and objects made of those; [ToNumber] is exact on [undefined],
    [null], booleans, integers and strings of plain decimal digits, and is
    [NaN] on every other string and on every array and object, also where
    JavaScript reads a number ([[]], ['-5'], [' 7 ']). *)
Fixpoint digits (acc : Z) (s : string) : option Z :=
  match s with
  | EmptyString => Some acc
  | String c rest =>
      let d := Z.of_nat (Ascii.nat_of_ascii c) - 48 in
      if (0 <=? d)%Z && (d <? 10)%Z then digits (10 * acc + d) rest else None
  end.

Definition join (sep : string) (parts : list string) : string :=
  match parts with
  | [] => ""
  | p :: rest => fold_left (fun acc q => acc +:+ sep +:+ q) rest p
  end.

Fixpoint node_ToString (v : value) : string :=
  match v with
  | VUndef => "undefined"
  | VNull => "null"
  | VBool true => "true"
  | VBool false => "false"
  | VNum n => pretty n
  | VNaN => "NaN"
  | VStr s => s
  | VArr elems =>
      join "," (map (fun e => match e with
                              | VUndef | VNull => ""
                              | _ => node_ToString e
                              end) elems)
  | VObj _ => "[object Object]"
  end.

Definition quoted (s : string) : string :=
  String.String (Ascii.ascii_of_nat 34) s +:+
  String.String (Ascii.ascii_of_nat 34) "".

Fixpoint node_stringify (v : value) : string :=
  match v with
  | VUndef => "undefined"
  | VNull | VNaN => "null"
  | VBool true => "true"
  | VBool false => "false"
  | VNum n => pretty n
  | VStr s => quoted s
  | VArr elems => "[" +:+ join "," (map node_stringify elems) +:+ "]"
  | VObj props =>
      "{" +:+ join "," (map (fun kv => match kv with
                                       | (k, x) => quoted k +:+ ":" +:+
                                                   node_stringify x
                                       end) props) +:+ "}"
  end.

Definition node_ToNumber (v : value) : value :=
  match v with
  | VNum n => VNum n
  | VNull | VBool false => VNum 0
  | VBool true => VNum 1
  | VStr s => match digits 0 s with Some n => VNum n | None => VNaN end
  | _ => VNaN
  end.

#[global] Instance node : JSRuntime := {
  ToNumber := node_ToNumber;
  ToString := node_ToString;
  JSON_stringify := node_stringify
}.

(** [a * k] for an integer literal [k]. *)
Definition js_times `{JSRuntime} (a : value) (k : Z) : value :=
  match a with
  | VNum n => VNum (n * k)
  | VNaN => VNaN
  | _ => match ToNumber a with VNum n => VNum (n * k) | _ => VNaN end
  end.

(** [String(v)] and the string a template literal or [new Error(v)] makes of
    [v]. *)
Definition js_string `{JSRuntime} (v : value) : string :=
  match v with VStr s => s | _ => ToString v end.

(** An inbound frame [data]: text that [JSON.parse] rejects, or text that it
    parses to a value. *)
Inductive Buffer : Type :=
  | Garbled (text : string)
  | Json (v : value).

Definition JSON_parse (data : Buffer) : completion value :=
  match data with
  | Garbled _ => Throw SyntaxError
  | Json v => Normal v
  end.

(** ** [Map]: insertion-ordered, keys compared with SameValueZero *)

Module JsMap.
Definition t (V : Type) : Type := list (value * V).

Definition empty {V} : t V := [].

Fixpoint get {V} (k : value) (m : t V) : option V :=
  match m with
  | [] => None
  | (k', v) :: rest => if sameValueZero k' k then Some v else get k rest
  end.

(** [set] on a key already present replaces the value and keeps the
    position of the entry; a new key goes last. *)
Fixpoint set {V} (k : value) (v : V) (m : t V) : t V :=
  match m with
  | [] => [(k, v)]
  | (k', v') :: rest =>
      if sameValueZero k' k then (k', v) :: rest else (k', v') :: set k v rest
  end.

(** [Array.from(m.values())] and [Array.from(m.keys())]. *)
Definition values {V} (m : t V) : list V := m.*2.
Definition keys {V} (m : t V) : list value := m.*1.
End JsMap.

(** ** The network aggregator *)

Module NetworkRequest.
(** [Partial<NetworkRequest>]: every field may be [undefined]. *)
Record t : Type := mk {
  id : value;
  url : value;
  method : value;
  status : value;
  type : value;
  size : value;
  timestamp : value;
  requestHeaders : value;
  responseHeaders : value
}.

Definition set_url (v : value) (r : t) : t :=
  mk (id r) v (method r) (status r) (type r) (size r) (timestamp r)
     (requestHeaders r) (responseHeaders r).
Definition set_method (v : value) (r : t) : t :=
  mk (id r) (url r) v (status r) (type r) (size r) (timestamp r)
     (requestHeaders r) (responseHeaders r).
Definition set_status (v : value) (r : t) : t :=
  mk (id r) (url r) (method r) v (type r) (size r) (timestamp r)
     (requestHeaders r) (responseHeaders r).
Definition set_type (v : value) (r : t) : t :=
  mk (id r) (url r) (method r) (status r) v (size r) (timestamp r)
     (requestHeaders r) (responseHeaders r).
Definition set_size (v : value) (r : t) : t :=
  mk (id r) (url r) (method r) (status r) (type r) v (timestamp r)
     (requestHeaders r) (responseHeaders r).
Definition set_timestamp (v : value) (r : t) : t :=
  mk (id r) (url r) (method r) (status r) (type r) (size r) v
     (requestHeaders r) (responseHeaders r).
Definition set_requestHeaders (v : value) (r : t) : t :=
  mk (id r) (url r) (method r) (status r) (type r) (size r) (timestamp r)
     v (responseHeaders r).
Definition set_responseHeaders (v : value) (r : t) : t :=
  mk (id r) (url r) (method r) (status r) (type r) (size r) (timestamp r)
     (requestHeaders r) v.
End NetworkRequest.

(** A request object lives in the heap; both maps of the aggregator hold
    references to it. *)
Abbreviation loc := nat (only parsing).

Module Net.
Import NetworkRequest.

(** The state a network listener works on: the objects, the [requests] map
    local to [setupNetworkCollection], and [this.networkRequests]. *)
Record state : Type := mkState {
  heap : list NetworkRequest.t;
  requests : JsMap.t loc;
  networkRequests : JsMap.t loc
}.

Definition init : state := mkState [] JsMap.empty JsMap.empty.

(** [o.f = v] on the object at [l]. *)
Definition assign (l : loc) (f : NetworkRequest.t -> NetworkRequest.t)
    (s : state) : state :=
  mkState (alter f l (heap s)) (requests s) (networkRequests s).

(** The [Network.requestWillBeSent] branch. *)
Definition requestWillBeSent `{JSRuntime} (message : value) (s : state)
    : completion state :=
  params ← get message "params";
  requestId ← get params "requestId";
  request ← get params "request";
  timestamp ← get params "timestamp";
  type ← get params "type";
  let existing := JsMap.get requestId (requests s) in
  match existing with
  | Some l =>
      request_url ← get request "url";
      request_method ← get request "method";
      request_headers ← get request "headers";
      mret (assign l (set_requestHeaders request_headers)
           (assign l (set_type type)
           (assign l (set_timestamp (js_times timestamp 1000))
           (assign l (set_method request_method)
           (assign l (set_url request_url) s)))))
  | None =>
      request_url ← get request "url";
      request_method ← get request "method";
      request_headers ← get request "headers";
      let l := length (heap s) in
      let obj := mk requestId request_url request_method VUndef type VUndef
                    (js_times timestamp 1000) request_headers VUndef in
      mret (mkState (heap s ++ [obj]) (JsMap.set requestId l (requests s))
                    (networkRequests s))
  end.

(** The [Network.responseReceived] branch; [now] is [Date.now()]. *)
Definition responseReceived (now : Z) (message : value) (s : state)
    : completion state :=
  params ← get message "params";
  requestId ← get params "requestId";
  response ← get params "response";
  '(l, s1) ←
    match JsMap.get requestId (requests s) with
    | Some l => mret (l, s)
    | None =>
        response_url ← get response "url";
        let l := length (heap s) in
        let obj := mk requestId (js_or response_url (VStr "")) (VStr "GET")
                      VUndef VUndef VUndef (VNum now) VUndef VUndef in
        mret (l, mkState (heap s ++ [obj]) (JsMap.set requestId l (requests s))
                         (networkRequests s))
    end;
  response_status ← get response "status";
  let s2 := assign l (set_status response_status) s1 in
  response_headers ← get response "headers";
  let s3 := assign l (set_responseHeaders response_headers) s2 in
  encodedDataLength ← get response "encodedDataLength";
  let s4 := if is_defined encodedDataLength
            then assign l (set_size encodedDataLength) s3 else s3 in
  mret (mkState (heap s4) (requests s4)
                (JsMap.set requestId l (networkRequests s4))).

(** The [Network.loadingFinished] branch. *)
Definition loadingFinished (message : value) (s : state) : completion state :=
  params ← get message "params";
  requestId ← get params "requestId";
  encodedDataLength ← get params "encodedDataLength";
  match JsMap.get requestId (networkRequests s) with
  | Some l => mret (assign l (set_size encodedDataLength) s)
  | None => mret s
  end.

(** The listener that [setupNetworkCollection] registers. Every statement
    that can throw comes before the first assignment of its branch, so a
    throwing run leaves the state as it found it. *)
Definition onMessage `{JSRuntime} (now : Z) (data : Buffer) (s : state)
    : completion state :=
  message ← JSON_parse data;
  method ← get message "method";
  s1 ← (if strict_eq_str method "Network.requestWillBeSent"
        then requestWillBeSent message s else mret s);
  s2 ← (if strict_eq_str method "Network.responseReceived"
        then responseReceived now message s1 else mret s1);
  if strict_eq_str method "Network.loadingFinished"
  then loadingFinished message s2 else mret s2.

(** [getNetworkRequests]: [Array.from(this.networkRequests.values())]. An
    entry of the map is a reference; the array holds the objects. *)
Definition getNetworkRequests (s : state) : list NetworkRequest.t :=
  omap (fun l => heap s !! l) (JsMap.values (networkRequests s)).

(** The entity retrieval shows for key [k], if any. *)
Definition entity (k : value) (s : state) : option NetworkRequest.t :=
  l ← JsMap.get k (networkRequests s); heap s !! l.

(** One inbound frame with the clock value its handler reads. A frame on
    which the listener throws changes nothing (see [onMessage]). *)
Definition deliver `{JSRuntime} (s : state) (d : Z * Buffer) : state :=
  match onMessage d.1 d.2 s with
  | Normal s' => s'
  | Throw _ => s
  end.

(** The aggregator after the frames [ds], in arrival order. *)
Definition run `{JSRuntime} (ds : list (Z * Buffer)) (s : state) : state :=
  foldl deliver s ds.

(** The three notifications of one request [k], as they come off the wire. *)
Inductive event : Type :=
  | Start (k : string) (request : list (string * value)) (timestamp type : value)
  | Response (k : string) (response : list (string * value))
  | Finish (k : string) (encodedDataLength : value).

Definition notification (method : string) (params : list (string * value)) : Buffer :=
  Json (VObj [("method", VStr method); ("params", VObj params)]).

Definition frame (e : event) : Buffer :=
  match e with
  | Start k request timestamp type =>
      notification "Network.requestWillBeSent"
        [("requestId", VStr k); ("request", VObj request);
         ("timestamp", timestamp); ("type", type)]
  | Response k response =>
      notification "Network.responseReceived"
        [("requestId", VStr k); ("response", VObj response)]
  | Finish k encodedDataLength =>
      notification "Network.loadingFinished"
        [("requestId", VStr k); ("encodedDataLength", encodedDataLength)]
  end.

(** [o.name] for an object literal with the properties [o]. *)
Definition field (name : string) (o : list (string * value)) : value :=
  default VUndef (lookup_prop name o).


(** Is [data] a [Network.responseReceived] frame for the key [k]? *)
Definition is_response_for (k : string) (data : Buffer) : bool :=
  match data with
  | Json (VObj props) =>
      strict_eq_str (field "method" props) "Network.responseReceived" &&
      match field "params" props with
      | VObj params => strict_eq_str (field "requestId" params) k
      | _ => false
      end
  | _ => false
  end.
End Net.

(** ** The console aggregator *)

Module ConsoleMessage.
Record t : Type := mk {
  id : string;
  type : value;
  timestamp : value;
  text : value;
  source : string;
  line : value;
  url : value;
  args : value
}.
End ConsoleMessage.

(** What one run of a listener reads from the host: [Date.now()] of the
    entry id, the suffix
    [Math.random().toString(36).substring(2, 11)], and [Date.now()] of the
    timestamp default (for the network listener, of the provisional
    timestamp). *)
Record tick : Type := mkTick {
  now_id : Z;
  suffix : string;
  now : Z
}.

Module Console.
Import ConsoleMessage.

(** The callback of [args.map]. *)
Definition format_arg `{JSRuntime} (arg : value) : completion value :=
  arg_value ← get arg "value";
  if is_defined arg_value then mret (VStr (js_string arg_value))
  else
    arg_description ← get arg "description";
    if is_defined arg_description then mret arg_description
    else mret (VStr (JSON_stringify arg)).

Fixpoint map_args `{JSRuntime} (elems : list value) : completion (list value) :=
  match elems with
  | [] => mret []
  | arg :: rest =>
      x ← format_arg arg;
      xs ← map_args rest;
      mret (x :: xs)
  end.

(** [xs.join(' ')]: [undefined] and [null] elements give the empty string. *)
Definition join_space `{JSRuntime} (xs : list value) : string :=
  join " " (map (fun x => match x with
                          | VUndef | VNull => ""
                          | _ => js_string x
                          end) xs).

(** [`msg_${Date.now()}_${Math.random().toString(36).substring(2, 11)}`]. *)
Definition fresh_id `{JSRuntime} (t : tick) : string :=
  "msg_" +:+ js_string (VNum (now_id t)) +:+ "_" +:+ suffix t.

(** The entry of a [Runtime.consoleAPICalled] notification. Only an array
    has [map]. *)
Definition consoleAPICalled `{JSRuntime} (t : tick) (message : value)
    : completion ConsoleMessage.t :=
  params ← get message "params";
  type ← get params "type";
  args ← get params "args";
  timestamp ← get params "timestamp";
  mapped ← match args with
           | VArr elems => map_args elems
           | _ => Throw TypeError
           end;
  mret (mk (fresh_id t) type (js_or timestamp (VNum (now t)))
           (VStr (join_space mapped)) "console-api" VUndef VUndef args).

(** The entry of a [Runtime.exceptionThrown] notification. *)
Definition exceptionThrown `{JSRuntime} (t : tick) (message : value)
    : completion ConsoleMessage.t :=
  params ← get message "params";
  exceptionDetails ← get params "exceptionDetails";
  timestamp ← get params "timestamp";
  details_text ← get exceptionDetails "text";
  details_line ← get exceptionDetails "lineNumber";
  details_url ← get exceptionDetails "url";
  mret (mk (fresh_id t) (VStr "error") (js_or timestamp (VNum (now t)))
           details_text "exception" details_line details_url VUndef).

Definition store (entry : ConsoleMessage.t) (m : JsMap.t ConsoleMessage.t)
    : JsMap.t ConsoleMessage.t :=
  JsMap.set (VStr (id entry)) entry m.

(** The listener that [setupConsoleCollection] registers, on
    [this.consoleMessages]. The only assignment of each branch is its last
    statement. *)
Definition onMessage `{JSRuntime} (t : tick) (data : Buffer)
    (m : JsMap.t ConsoleMessage.t) : completion (JsMap.t ConsoleMessage.t) :=
  message ← JSON_parse data;
  method ← get message "method";
  m1 ← (if strict_eq_str method "Runtime.consoleAPICalled"
        then entry ← consoleAPICalled t message; mret (store entry m)
        else mret m);
  if strict_eq_str method "Runtime.exceptionThrown"
  then entry ← exceptionThrown t message; mret (store entry m1)
  else mret m1.

(** [getConsoleMessages]. *)
Definition getConsoleMessages (m : JsMap.t ConsoleMessage.t)
    : list ConsoleMessage.t :=
  JsMap.values m.

(** The entry a frame gives rise to, if it gives rise to one. *)
Definition entry_of `{JSRuntime} (t : tick) (data : Buffer)
    : option ConsoleMessage.t :=
  match data with
  | Json (VObj props) =>
      let method := default VUndef (lookup_prop "method" props) in
      if strict_eq_str method "Runtime.consoleAPICalled"
      then match consoleAPICalled t (VObj props) with
           | Normal e => Some e | Throw _ => None end
      else if strict_eq_str method "Runtime.exceptionThrown"
      then match exceptionThrown t (VObj props) with
           | Normal e => Some e | Throw _ => None end
      else None
  | _ => None
  end.

Definition deliver `{JSRuntime} (m : JsMap.t ConsoleMessage.t) (d : tick * Buffer)
    : JsMap.t ConsoleMessage.t :=
  match onMessage d.1 d.2 m with
  | Normal m' => m'
  | Throw _ => m
  end.

(** The store after the frames [ds], in arrival order. *)
Definition run `{JSRuntime} (ds : list (tick * Buffer)) (m : JsMap.t ConsoleMessage.t)
    : JsMap.t ConsoleMessage.t :=
  foldl deliver m ds.

(** The entries of the frames [ds], in arrival order. *)
Definition entries `{JSRuntime} (ds : list (tick * Buffer)) : list ConsoleMessage.t :=
  omap (fun d => entry_of d.1 d.2) ds.

(** The type filter of [listConsole]: applied when [options.type] is given
    and not the empty string. *)
Definition filterByType (type : option string) (messages : list ConsoleMessage.t)
    : list ConsoleMessage.t :=
  match type with
  | Some ty =>
      if truthy (VStr ty)
      then List.filter (fun m => strict_eq_str (ConsoleMessage.type m) ty) messages
      else messages
  | None => messages
  end.
End Console.

(** ** One context on one WebSocket *)

Module Session.

(** A function registered with [ws.on('message', ...)]: the [messageHandler]
    of the [sendCommand] call that was given [id], the console listener, or
    the network listener whose local [requests] map is the [closure]-th
    one created. *)
Inductive listener : Type :=
  | CommandListener (id : Z) (method : string)
  | ConsoleListener
  | NetworkListener (closure : nat).

(** The promise [sendCommand] returns. *)
Inductive promise : Type :=
  | Pending
  | Fulfilled (result : value)
  | Rejected (reason : exn).

Record t : Type := mk {
  messageId : Z;
  consoleMessages : JsMap.t ConsoleMessage.t;
  networkRequests : JsMap.t loc;
  heap : list NetworkRequest.t;
  closures : list (JsMap.t loc);
  listeners : list listener;
  timers : gmap Z string;
  promises : gmap Z promise;
  sent : list value;
  closed : bool
}.

(** [new CDPContext()] and a socket that has just opened. *)
Definition init : t :=
  mk 1 JsMap.empty JsMap.empty [] [] [] ∅ ∅ [] false.

Definition is_handler_of (id : Z) (l : listener) : bool :=
  match l with
  | CommandListener id' _ => (id' =? id)%Z
  | _ => false
  end.

(** [ws.off('message', messageHandler)] for the handler of call [id]; ids
    are never reused, so a call has one handler. *)
Definition off (id : Z) (ls : list listener) : list listener :=
  List.filter (fun l => negb (is_handler_of id l)) ls.

(** [resolve] and [reject]: only the first call on a promise counts. *)
Definition settle (id : Z) (outcome : promise) (ps : gmap Z promise)
    : gmap Z promise :=
  match ps !! id with
  | Some Pending => <[id := outcome]> ps
  | _ => ps
  end.

Definition with_promise_state (s : t) (ls : list listener)
    (ts : gmap Z string) (ps : gmap Z promise) : t :=
  mk (messageId s) (consoleMessages s) (networkRequests s) (heap s)
     (closures s) ls ts ps (sent s) (closed s).

(** [sendCommand]: the id it takes, and the context after the executor of
    the promise has run: timer armed, handler registered, frame sent. *)
Definition sendCommand (method : string) (params : value) (s : t) : Z * t :=
  let id := messageId s in
  (id,
   mk (id + 1) (consoleMessages s) (networkRequests s) (heap s) (closures s)
      (listeners s ++ [CommandListener id method])
      (<[id := method]> (timers s))
      (<[id := Pending]> (promises s))
      (sent s ++ [VObj [("id", VNum id); ("method", VStr method);
                        ("params", params)]])
      (closed s)).

(** [messageHandler] of the call [id]. *)
Definition messageHandler `{JSRuntime} (id : Z) (data : Buffer) (s : t)
    : completion t :=
  message ← JSON_parse data;
  message_id ← get message "id";
  if strict_eq_num message_id id then
    let ts := delete id (timers s) in
    let ls := off id (listeners s) in
    message_error ← get message "error";
    if truthy message_error then
      error_message ← get message_error "message";
      mret (with_promise_state s ls ts
              (settle id (Rejected (Error (js_string
                 (js_or error_message (VStr "CDP command failed")))))
                 (promises s)))
    else
      message_result ← get message "result";
      mret (with_promise_state s ls ts
              (settle id (Fulfilled message_result) (promises s)))
  else mret s.

(** The callback of [setTimeout]; a timer that was cleared or has fired does
    not fire. *)
Definition timeout (id : Z) (s : t) : t :=
  match timers s !! id with
  | Some method =>
      with_promise_state s (off id (listeners s)) (delete id (timers s))
        (settle id (Rejected (Error ("Command timeout: " +:+ method)))
           (promises s))
  | None => s
  end.

Definition setupConsoleCollection (s : t) : t :=
  mk (messageId s) (consoleMessages s) (networkRequests s) (heap s)
     (closures s) (listeners s ++ [ConsoleListener]) (timers s) (promises s)
     (sent s) (closed s).

Definition setupNetworkCollection (s : t) : t :=
  mk (messageId s) (consoleMessages s) (networkRequests s) (heap s)
     (closures s ++ [JsMap.empty])
     (listeners s ++ [NetworkListener (length (closures s))])
     (timers s) (promises s) (sent s) (closed s).

(** One listener called with [data]. *)
Definition invoke `{JSRuntime} (l : listener) (tk : tick) (data : Buffer) (s : t)
    : completion t :=
  match l with
  | CommandListener id _ => messageHandler id data s
  | ConsoleListener =>
      m ← Console.onMessage tk data (consoleMessages s);
      mret (mk (messageId s) m (networkRequests s) (heap s) (closures s)
               (listeners s) (timers s) (promises s) (sent s) (closed s))
  | NetworkListener c =>
      n ← Net.onMessage (now tk) data
             (Net.mkState (heap s) (default JsMap.empty (closures s !! c))
                          (networkRequests s));
      mret (mk (messageId s) (consoleMessages s) (Net.networkRequests n)
               (Net.heap n) (<[c := Net.requests n]> (closures s))
               (listeners s) (timers s) (promises s) (sent s) (closed s))
  end.

(** [ws.emit('message', data)]: the listeners registered when the emit
    starts are called in registration order; the first one that throws ends
    the emit and its exception leaves it. [clock i] is what the listener at
    position [i] reads from the host. *)
Fixpoint emit_from `{JSRuntime} (ls : list listener) (i : nat) (clock : nat -> tick)
    (data : Buffer) (s : t) : t * option exn :=
  match ls with
  | [] => (s, None)
  | l :: rest =>
      match invoke l (clock i) data s with
      | Normal s' => emit_from rest (S i) clock data s'
      | Throw e => (s, Some e)
      end
  end.

Definition emit `{JSRuntime} (clock : nat -> tick) (data : Buffer) (s : t)
    : t * option exn :=
  emit_from (listeners s) 0 clock data s.

(** What happens to a session, one thing at a time. *)
Inductive event : Type :=
  | Call (method : string) (params : value)
  | Message (clock : nat -> tick) (data : Buffer)
  | TimerFires (id : Z)
  | Close
  | SetupConsole
  | SetupNetwork.

(** The session after the event, and the exception that left the dispatch
    of a message, if one did. The program registers no listener for the
    socket's close event. *)
Definition exec `{JSRuntime} (e : event) (s : t) : t * option exn :=
  match e with
  | Call method params => ((sendCommand method params s).2, None)
  | Message clock data => emit clock data s
  | TimerFires id => (timeout id s, None)
  | Close =>
      (mk (messageId s) (consoleMessages s) (networkRequests s) (heap s)
          (closures s) (listeners s) (timers s) (promises s) (sent s) true,
       None)
  | SetupConsole => (setupConsoleCollection s, None)
  | SetupNetwork => (setupNetworkCollection s, None)
  end.

Definition run `{JSRuntime} (es : list event) (s : t) : t :=
  foldl (fun s e => (exec e s).1) s es.

(** The frames of a result and of a remote error. *)
Definition result_frame (id : Z) (result : value) : Buffer :=
  Json (VObj [("id", VNum id); ("result", result)]).

Definition error_frame (id : Z) (error : value) : Buffer :=
  Json (VObj [("id", VNum id); ("error", error)]).

(** A frame that is an object without a [method]: a reply, not a
    notification. *)
Definition is_reply (data : Buffer) : bool :=
  match data with
  | Json (VObj props) => negb (is_defined (default VUndef (lookup_prop "method" props)))
  | _ => false
  end.

(** What a reply decides for the call [id]: nothing if it carries another
    id, else rejection with the remote message or fulfilment with the
    result. *)
Definition verdict `{JSRuntime} (id : Z) (data : Buffer) : option promise :=
  match data with
  | Json (VObj props) =>
      if strict_eq_num (default VUndef (lookup_prop "id" props)) id then
        let err := default VUndef (lookup_prop "error" props) in
        if truthy err then
          Some (Rejected (Error (js_string
                  (js_or (match get err "message" with
                          | Normal x => x | Throw _ => VUndef end)
                         (VStr "CDP command failed")))))
        else Some (Fulfilled (default VUndef (lookup_prop "result" props)))
      else None
  | _ => None
  end.

(** What [messageHandler] of the call [id] does once the ids agree. *)
Definition settled_by (id : Z) (outcome : promise) (s : t) : t :=
  with_promise_state s (off id (listeners s)) (delete id (timers s))
    (settle id outcome (promises s)).

(** The call a reply is for, with what it decides. *)
Definition addressee `{JSRuntime} (data : Buffer) : option (Z * promise) :=
  match data with
  | Json (VObj props) =>
      match default VUndef (lookup_prop "id" props) with
      | VNum n => match verdict n data with
                  | Some o => Some (n, o)
                  | None => None
                  end
      | _ => None
      end
  | _ => None
  end.

(** The call [id] is outstanding: promise pending, timer armed, handler
    registered. *)
Definition outstanding (id : Z) (method : string) (s : t) : Prop :=
  promises s !! id = Some Pending /\
  timers s !! id = Some method /\
  CommandListener id method ∈ listeners s /\
  (id < messageId s)%Z.

(** Events that do not concern the call [id]: other calls, frames that are
    not a message carrying [id] (malformed frames, notifications, replies
    to other calls), timers of other calls, the close of the socket, and the
    registration of collectors. *)
Definition bystander `{JSRuntime} (id : Z) (e : event) : bool :=
  match e with
  | Message _ data => match verdict id data with None => true | Some _ => false end
  | TimerFires j => negb (j =? id)%Z
  | _ => true
  end.

(** A batch of calls, and a batch of result frames [(id, result)] in the
    order they arrive. *)
Definition calls (cmds : list (string * value)) : list event :=
  map (fun c => Call c.1 c.2) cmds.

Definition results (clock : nat -> tick) (rs : list (Z * value)) : list event :=
  map (fun r => Message clock (result_frame r.1 r.2)) rs.

(** The first result of the batch that carries [id]. *)
Definition result_for (id : Z) (rs : list (Z * value)) : option value :=
  snd <$> List.find (fun r => (r.1 =? id)%Z) rs.
End Session.

(** ** Page lookup *)

Module Page.
Record t : Type := mk {
  id : string;
  title : string;
  url : string;
  type : string;
  webSocketDebuggerUrl : string
}.
End Page.

Module Pages.
Import Page.

(** [fetch(`${cdpUrl}/json`)] as the context sees it. *)
Record response : Type := mkResponse {
  ok : bool;
  statusText : string;
  json : list Page.t
}.

(** What a command does to the outside world, in order. *)
Inductive effect : Type :=
  | Fetch (url : string)
  | OpenChannel (webSocketDebuggerUrl : string).

(** [s.includes(sub)]. *)
Fixpoint includes (s sub : string) : bool :=
  String.prefix sub s ||
  match s with
  | EmptyString => false
  | String _ rest => includes rest sub
  end.

Definition getPages (cdpUrl : string) (directory : response)
    : list effect * completion (list Page.t) :=
  ([Fetch (cdpUrl +:+ "/json")],
   if ok directory
   then Normal (List.filter (fun p => String.eqb (type p) "page") (json directory))
   else Throw (Error ("Failed to fetch pages: " +:+ statusText directory))).

Definition matches (idOrTitle : string) (p : Page.t) : bool :=
  String.eqb (id p) idOrTitle || includes (title p) idOrTitle.

Definition findPage (cdpUrl : string) (directory : response) (idOrTitle : string)
    : list effect * completion Page.t :=
  let '(effects, pages) := getPages cdpUrl directory in
  (effects,
   pages ← pages;
   match List.find (matches idOrTitle) pages with
   | Some page => Normal page
   | None => Throw (Error ("Page not found: " +:+ idOrTitle))
   end).

(** A page the selector may pick: an entry of type 'page' whose id is the
    selector or whose title has the selector as a substring. *)
Definition eligible (idOrTitle : string) (p : Page.t) : Prop :=
  type p = "page" /\
  (id p = idOrTitle \/ exists a b, title p = a +:+ idOrTitle +:+ b).

(** [connect]: opens the channel of the page. *)
Definition connect (page : Page.t) : list effect :=
  [OpenChannel (webSocketDebuggerUrl page)].

(** The first two statements of every command that works on a page:
    [const page = await context.findPage(...); ws = await context.connect(page)].
    A throw of [findPage] goes to the command's [catch]. *)
Definition openPage (cdpUrl : string) (directory : response) (idOrTitle : string)
    : list effect * completion Page.t :=
  let '(effects, page) := findPage cdpUrl directory idOrTitle in
  match page with
  | Normal p => (effects ++ connect p, Normal p)
  | Throw e => (effects, Throw e)
  end.
End Pages.

(** The directory of the test suite, with a service worker listed first:
    'Hub' selects the page titled 'GitHub', and 'Web Worker' selects
    nothing although an entry has that very title. *)
Definition sample_directory : Pages.response :=
  Pages.mkResponse true "OK"
    [Page.mk "worker1" "Web Worker" "" "service_worker"
             "ws://localhost:9222/devtools/worker/worker1";
     Page.mk "page1" "Example Domain" "https://example.com" "page"
             "ws://localhost:9222/devtools/page/page1";
     Page.mk "page2" "GitHub" "https://github.com" "page"
             "ws://localhost:9222/devtools/page/page2";
     Page.mk "page3" "GitHub Hubbub" "https://github.com/x" "page"
             "ws://localhost:9222/devtools/page/page3"].

(** ** Views of a session *)

Module SessionView.
Import Session.

Definition is_call (e : event) : bool :=
  match e with Call _ _ => true | _ => false end.

(** The [id] a sent frame carries. *)
Definition sent_id (frame : value) : option Z :=
  match get frame "id" with
  | Normal (VNum n) => Some n
  | _ => None
  end.



(** The frames of a trace as the listener registered first receives them. *)
Definition console_frames (es : list event) : list (tick * Buffer) :=
  omap (fun e => match e with
                 | Message clock data => Some (clock 0%nat, data)
                 | _ => None
                 end) es.

Definition network_frames (es : list event) : list (Z * Buffer) :=
  omap (fun e => match e with
                 | Message clock data => Some (now (clock 0%nat), data)
                 | _ => None
                 end) es.

(** The state the first network listener works on. *)
Definition network_view (s : t) : Net.state :=
  Net.mkState (heap s) (default JsMap.empty (closures s !! 0%nat))
              (networkRequests s).

(** The console listener is registered first and only once. *)
Definition console_first (s : t) : Prop :=
  exists rest, listeners s = ConsoleListener :: rest /\ ConsoleListener ∉ rest.

(** The network listener of the first closure is registered first, and no
    other network listener is. *)
Definition network_first (s : t) : Prop :=
  (exists rest, listeners s = NetworkListener 0 :: rest /\
                forall c, NetworkListener c ∉ rest) /\
  length (closures s) = 1%nat.
End SessionView.

(** ** Views of the aggregators *)

Module NetView.
Import NetworkRequest Net.

(** Every entry of either map refers to an object of the heap, and that
    object carries the key of the entry as its [id]. *)
Definition tied (s : state) : Prop :=
  Forall (fun kl => exists o, heap s !! kl.2 = Some o /\ id o = kl.1) (requests s) /\
  Forall (fun kl => exists o, heap s !! kl.2 = Some o /\ id o = kl.1)
         (networkRequests s).

(** The keys of the response notifications among [evs], in arrival order. *)
Definition response_keys (evs : list (Z * event)) : list string :=
  omap (fun d => match d.2 with Response k _ => Some k | _ => None end) evs.

(** The keys of [ks] that are not in [seen], each at its first occurrence. *)
Fixpoint first_seen (seen ks : list string) : list string :=
  match ks with
  | [] => []
  | k :: ks =>
      if bool_decide (k ∈ seen) then first_seen seen ks
      else k :: first_seen (k :: seen) ks
  end.
End NetView.

Module ConsoleView.
Import ConsoleMessage.

(** The two shapes of an entry: built from a console call, or from an
    uncaught exception. *)
Definition from_console_call (e : ConsoleMessage.t) : Prop :=
  source e = "console-api" /\ (exists t, text e = VStr t) /\
  (exists elems, args e = VArr elems) /\ line e = VUndef /\ url e = VUndef.

Definition from_exception (e : ConsoleMessage.t) : Prop :=
  source e = "exception" /\ type e = VStr "error" /\ args e = VUndef.

(** The entries among [es] that carry the id [k]. *)
Definition with_id (k : string) (es : list ConsoleMessage.t)
    : list ConsoleMessage.t :=
  List.filter (fun e => String.eqb (id e) k) es.

(** One entry per id that occurs in [es], in the order in which the ids
    first occur: the latest entry that carries the id. *)
Definition retained (es : list ConsoleMessage.t) : list ConsoleMessage.t :=
  omap (fun k => last (with_id k es)) (NetView.first_seen [] (id <$> es)).
End ConsoleView.

(** ** The listing commands *)

Module ListConsole.
Import ConsoleMessage.

(** [xs.slice(start)] for an integer [start]: a negative [start] counts
    from the end, and [-0] is [0]. *)
Definition slice_from {A} (start : Z) (xs : list A) : list A :=
  let len := Z.of_nat (length xs) in
  let k := if (start <? 0)%Z then Z.max (len + start) 0 else Z.min start len in
  drop (Z.to_nat k) xs.

(** The two numbers of the warning on stderr,
    [(${skippedCount} messages skipped. Use --tail ${suggestedTail} or --all
    to see more)]. *)
Record warning : Type := mkWarning {
  skippedCount : Z;
  suggestedTail : Z
}.

(** The tail limit of [listConsole], for an integer [options.tail]: the
    messages that remain, and the warning if one is printed. *)
Definition applyTail {A} (tail : Z) (messages : list A)
    : list A * option warning :=
  let totalMessages := Z.of_nat (length messages) in
  if negb (tail =? -1)%Z && (tail <? totalMessages)%Z
  then
    let kept := slice_from (- tail) messages in
    (kept, Some (mkWarning (totalMessages - Z.of_nat (length kept))
                           (Z.min totalMessages 50)))
  else (messages, None).

(** The object [listConsole] prints for a message when one of the three
    flags is set, as the list of its properties in insertion order. *)
Definition object_of (withType withTimestamp withSource : bool)
    (msg : ConsoleMessage.t) : list (string * value) :=
  [("text", text msg)] ++
  (if withType then [("type", type msg); ("source", VStr (source msg))] else []) ++
  (if withTimestamp then [("timestamp", timestamp msg)] else []) ++
  (if withSource
   then (if truthy (line msg) then [("line", line msg)] else []) ++
        (if truthy (url msg) then [("url", url msg)] else [])
   else []).
End ListConsole.

Module ListNetwork.
Import NetworkRequest.

(** The type filter of [listNetwork]. *)
Definition filterByType (type : option string) (requests : list NetworkRequest.t)
    : list NetworkRequest.t :=
  match type with
  | Some ty =>
      if truthy (VStr ty)
      then List.filter (fun r => strict_eq_str (NetworkRequest.type r) ty) requests
      else requests
  | None => requests
  end.

(** [...(v && { name: v })]: nothing for a falsy [v]. *)
Definition spread_if (name : string) (v : value) : list (string * value) :=
  if truthy v then [(name, v)] else [].

(** The object [listNetwork] prints for a request. *)
Definition object_of (req : NetworkRequest.t) : list (string * value) :=
  [("url", url req); ("method", method req)] ++
  spread_if "status" (status req) ++
  spread_if "type" (NetworkRequest.type req) ++
  spread_if "size" (size req) ++
  [("timestamp", timestamp req)].
End ListNetwork.

(** ** The page commands *)

Module PageCommands.
Import Page Pages.








End PageCommands.

(** ** The configuration file *)

Module Config.

(** What [existsSync] and the [try] block of [findConfig] find for the file
    [.cdp-cli.json] of a directory: no file; a file that cannot be read or
    parsed, with the message of the error; or the parsed value. *)
Inductive file : Type :=
  | Missing
  | Broken (message : string)
  | Content (config : value).

(** A resolved directory as the list of its segments, innermost first; the
    root is the empty list, and [dirname] drops the first segment. *)
Definition dir : Type := list string.

(** [join(currentDir, '.cdp-cli.json')] on a POSIX system. *)
Definition configPath (currentDir : dir) : string :=
  fold_right (fun seg acc => acc +:+ "/" +:+ seg) "" currentDir +:+ "/.cdp-cli.json".

(** [findConfig]; [null] is [VNull]. *)
Fixpoint findConfig (fs : dir -> file) (currentDir : dir) : completion value :=
  match fs currentDir with
  | Content config => Normal config
  | Broken message =>
      Throw (Error ("Failed to parse " +:+ configPath currentDir +:+ ": " +:+ message))
  | Missing =>
      match currentDir with
      | [] => Normal VNull
      | _ :: parent => findConfig fs parent
      end
  end.


End Config.

(** * Properties *)

(** ** Facts about values and maps *)

Lemma sameValueZero_eq (a b : value) : sameValueZero a b = true -> a = b.
Proof.
  destruct a, b; simpl; try discriminate; try reflexivity.
  - intros E. apply Bool.eqb_prop in E. by subst.
  - intros E. apply Z.eqb_eq in E. by subst.
  - intros E. apply String.eqb_eq in E. by subst.
Qed.

Lemma sameValueZero_str_refl (k : string) : sameValueZero (VStr k) (VStr k) = true.
Proof. simpl. apply String.eqb_refl. Qed.

Section JsMapFacts.
Context {V : Type}.
Implicit Types (m : JsMap.t V) (k : value) (v : V).

Lemma JsMap_get_set_eq m k v :
  sameValueZero k k = true -> JsMap.get k (JsMap.set k v m) = Some v.
Proof.
  intros Hk. induction m as [|[k' v'] m IH]; simpl.
  - by rewrite Hk.
  - destruct (sameValueZero k' k) eqn:E; simpl; rewrite E; [done | exact IH].
Qed.

Lemma JsMap_get_set_ne m k k' v :
  sameValueZero k k' = false -> JsMap.get k' (JsMap.set k v m) = JsMap.get k' m.
Proof.
  intros Hne. induction m as [|[k0 v0] m IH]; simpl.
  - by rewrite Hne.
  - destruct (sameValueZero k0 k) eqn:E; simpl.
    + apply sameValueZero_eq in E. subst k0. by rewrite Hne.
    + by rewrite IH.
Qed.

Lemma JsMap_set_absent m k v :
  JsMap.get k m = None -> JsMap.set k v m = (m ++ [(k, v)])%list.
Proof.
  induction m as [|[k' v'] m IH]; simpl; [done|].
  destruct (sameValueZero k' k); [done|]. intros H. by rewrite IH.
Qed.

Lemma JsMap_set_present_keys m k v v0 :
  JsMap.get k m = Some v0 -> JsMap.keys (JsMap.set k v m) = JsMap.keys m.
Proof.
  unfold JsMap.keys. induction m as [|[k' v'] m IH]; simpl; [done|].
  destruct (sameValueZero k' k); [done|]. intros H.
  rewrite !fmap_cons. f_equal. by apply IH.
Qed.

Lemma JsMap_set_same m k v :
  JsMap.get k m = Some v -> JsMap.set k v m = m.
Proof.
  induction m as [|[k' v'] m IH]; simpl; [done|].
  destruct (sameValueZero k' k); [by intros [= ->]|]. intros H. by rewrite IH.
Qed.

Lemma JsMap_set_set m k v :
  sameValueZero k k = true -> JsMap.set k v (JsMap.set k v m) = JsMap.set k v m.
Proof. intros Hk. apply JsMap_set_same, JsMap_get_set_eq, Hk. Qed.

Lemma JsMap_get_Some_elem m k v :
  JsMap.get k m = Some v -> (k, v) ∈ m.
Proof.
  induction m as [|[k' v'] m IH]; simpl; [done|].
  destruct (sameValueZero k' k) eqn:E.
  - intros [= ->]. apply sameValueZero_eq in E. subst. left.
  - intros H. right. by apply IH.
Qed.


Lemma JsMap_get_None_absent m k :
  sameValueZero k k = true -> JsMap.get k m = None -> k ∉ JsMap.keys m.
Proof.
  intros Hk. unfold JsMap.keys. induction m as [|[k' v'] m IH].
  - intros _. apply not_elem_of_nil.
  - rewrite fmap_cons. simpl. destruct (sameValueZero k' k) eqn:E; [done|].
    intros Hm. apply not_elem_of_cons. split; [|by apply IH].
    intros ->. congruence.
Qed.

Lemma JsMap_set_NoDup m k v :
  sameValueZero k k = true ->
  NoDup (JsMap.keys m) -> NoDup (JsMap.keys (JsMap.set k v m)).
Proof.
  intros Hk Hnd. destruct (JsMap.get k m) as [v0|] eqn:E.
  - by rewrite (JsMap_set_present_keys _ _ _ _ E).
  - rewrite JsMap_set_absent by done. unfold JsMap.keys in *.
    rewrite fmap_app. simpl. apply NoDup_app. split; [done|].
    split; [|apply NoDup_singleton].
    intros x Hx ->%list_elem_of_singleton.
    by apply (JsMap_get_None_absent m k Hk E).
Qed.
End JsMapFacts.

(** ** The network aggregator, step by step *)

Section NetSteps.
Context `{JSRuntime}.
Import NetworkRequest Net.

Lemma onMessage_Start now k request ts ty s :
  onMessage now (frame (Start k request ts ty)) s =
  Normal match JsMap.get (VStr k) (requests s) with
         | Some l =>
             assign l (set_requestHeaders (field "headers" request))
             (assign l (set_type ty)
             (assign l (set_timestamp (js_times ts 1000))
             (assign l (set_method (field "method" request))
             (assign l (set_url (field "url" request)) s))))
         | None =>
             mkState (heap s ++ [mk (VStr k) (field "url" request)
                                    (field "method" request) VUndef ty VUndef
                                    (js_times ts 1000) (field "headers" request)
                                    VUndef])
                     (JsMap.set (VStr k) (length (heap s)) (requests s))
                     (networkRequests s)
         end.
Proof.
  unfold onMessage, requestWillBeSent; cbn.
  destruct (JsMap.get (VStr k) (requests s)); reflexivity.
Qed.

Lemma onMessage_Response now k response s :
  onMessage now (frame (Response k response)) s =
  Normal
    (let ls :=
       match JsMap.get (VStr k) (requests s) with
       | Some l => (l, s)
       | None =>
           (length (heap s),
            mkState (heap s ++ [mk (VStr k) (js_or (field "url" response) (VStr ""))
                                   (VStr "GET") VUndef VUndef VUndef (VNum now)
                                   VUndef VUndef])
                    (JsMap.set (VStr k) (length (heap s)) (requests s))
                    (networkRequests s))
       end in
     let s3 := assign ls.1 (set_responseHeaders (field "headers" response))
                 (assign ls.1 (set_status (field "status" response)) ls.2) in
     let s4 := if is_defined (field "encodedDataLength" response)
               then assign ls.1 (set_size (field "encodedDataLength" response)) s3
               else s3 in
     mkState (heap s4) (requests s4)
             (JsMap.set (VStr k) ls.1 (networkRequests s4))).
Proof.
  unfold onMessage, responseReceived; cbn.
  destruct (JsMap.get (VStr k) (requests s)); reflexivity.
Qed.

Lemma onMessage_Finish now k edl s :
  onMessage now (frame (Finish k edl)) s =
  Normal match JsMap.get (VStr k) (networkRequests s) with
         | Some l => assign l (set_size edl) s
         | None => s
         end.
Proof.
  unfold onMessage, loadingFinished; cbn.
  destruct (JsMap.get (VStr k) (networkRequests s)); reflexivity.
Qed.

(** A well-formed notification never throws. *)
Lemma onMessage_frame_completes now e s :
  completes (onMessage now (frame e) s) = true.
Proof.
  destruct e; by rewrite ?onMessage_Start, ?onMessage_Response, ?onMessage_Finish.
Qed.

Lemma alter_snoc {A} (f : A -> A) (h : list A) (x : A) :
  alter f (length h) (h ++ [x]) = h ++ [f x].
Proof.
  rewrite alter_app_r_alt by lia. by rewrite Nat.sub_diag.
Qed.

End NetSteps.

Lemma length_omap_alter_size {A} (f : A -> A) (l : nat) (h : list A) (ls : list nat) :
  length (omap (fun i => alter f l h !! i) ls) = length (omap (fun i => h !! i) ls).
Proof.
  induction ls as [|i ls IH]; simpl; [done|].
  destruct (decide (l = i)) as [->|Hne].
  - rewrite list_lookup_alter_eq.
    destruct (h !! i); simpl; [f_equal|]; exact IH.
  - rewrite list_lookup_alter_ne by done.
    destruct (h !! i); simpl; [f_equal|]; exact IH.
Qed.

Section NetClaims.
Context `{JSRuntime}.
Import NetworkRequest Net.

Lemma run_nil s : run [] s = s.
Proof. reflexivity. Qed.

Lemma run_cons d ds s : run (d :: ds) s = run ds (deliver s d).
Proof. reflexivity. Qed.

Lemma run_app ds1 ds2 s : run (ds1 ++ ds2) s = run ds2 (run ds1 s).
Proof. apply foldl_app. Qed.

Lemma deliver_frame now e s :
  deliver s (now, frame e) =
  match onMessage now (frame e) s with Normal s' => s' | Throw _ => s end.
Proof. reflexivity. Qed.

(** *** The invariant of the aggregator *)






(** Case analysis on the property reads in front of a handler's body. *)
Ltac reads H :=
  repeat match type of H with
  | context [mbind _ (get ?a ?b)] =>
      destruct (get a b) eqn:?; cbn -[js_times] in H; try discriminate H
  end.







(** *** What a delivery does to [this.networkRequests] *)

Lemma requestWillBeSent_published message s s' :
  requestWillBeSent message s = Normal s' ->
  networkRequests s' = networkRequests s.
Proof.
  unfold requestWillBeSent. intros Hrun. reads Hrun.
  all: destruct (JsMap.get _ (requests s)); try discriminate Hrun;
    by injection Hrun as <-.
Qed.

Lemma responseReceived_published now message s s' :
  responseReceived now message s = Normal s' ->
  exists params rid l,
    get message "params" = Normal params /\
    get params "requestId" = Normal rid /\
    networkRequests s' = JsMap.set rid l (networkRequests s).
Proof.
  unfold responseReceived. intros Hrun. reads Hrun.
  all: destruct (JsMap.get _ (requests s)) as [l|]; reads Hrun;
    try discriminate Hrun; injection Hrun as <-.
  all: do 3 eexists; split; [reflexivity|]; split; [eassumption|].
  all: by destruct (is_defined _).
Qed.

Lemma loadingFinished_published message s s' :
  loadingFinished message s = Normal s' ->
  networkRequests s' = networkRequests s.
Proof.
  unfold loadingFinished. intros Hrun. reads Hrun.
  destruct (JsMap.get _ (networkRequests s)); by injection Hrun as <-.
Qed.

Lemma onMessage_published now data s s' :
  onMessage now data s = Normal s' ->
  networkRequests s' = networkRequests s \/
  exists message method params rid l,
    data = Json message /\ get message "method" = Normal method /\
    strict_eq_str method "Network.responseReceived" = true /\
    get message "params" = Normal params /\
    get params "requestId" = Normal rid /\
    networkRequests s' = JsMap.set rid l (networkRequests s).
Proof.
  unfold onMessage. intros Hrun.
  destruct data as [|message]; [discriminate|]. cbn in Hrun.
  destruct (get message "method") as [method|] eqn:Hm; [cbn in Hrun|discriminate].
  assert (exists s1, networkRequests s1 = networkRequests s /\
    (s2 ← (if strict_eq_str method "Network.responseReceived"
           then responseReceived now message s1 else mret s1);
     if strict_eq_str method "Network.loadingFinished"
     then loadingFinished message s2 else mret s2) = Normal s') as (s1 & E1 & Hrun').
  { destruct (strict_eq_str method "Network.requestWillBeSent").
    - destruct (requestWillBeSent message s) as [s1|] eqn:E; [|discriminate].
      exists s1. split; [by eapply requestWillBeSent_published|exact Hrun].
    - exists s. split; [done|exact Hrun]. }
  clear Hrun. rewrite <- E1.
  destruct (strict_eq_str method "Network.responseReceived") eqn:Hresp.
  - destruct (responseReceived now message s1) as [s2|] eqn:E2; [|discriminate].
    cbn in Hrun'.
    apply responseReceived_published in E2 as (params & rid & l & Hp & Hr & E2).
    right. exists message, method, params, rid, l. repeat split; try done.
    rewrite <- E2.
    destruct (strict_eq_str method "Network.loadingFinished").
    + by eapply loadingFinished_published.
    + by injection Hrun' as <-.
  - cbn in Hrun'. left.
    destruct (strict_eq_str method "Network.loadingFinished").
    + by eapply loadingFinished_published.
    + by injection Hrun' as <-.
Qed.




Lemma deliver_unpublished_persists s d k :
  is_response_for k d.2 = false ->
  JsMap.get (VStr k) (networkRequests s) = None ->
  JsMap.get (VStr k) (networkRequests (deliver s d)) = None.
Proof.
  intros Hd Hk. unfold deliver.
  destruct (onMessage d.1 d.2 s) as [s'|] eqn:E; [|done].
  apply onMessage_published in E
    as [->|(message & method & params & rid & l & Hdata & Hm & Hresp & Hp & Hr & ->)];
    [done|].
  rewrite JsMap_get_set_ne; [done|].
  rewrite Hdata in Hd. unfold is_response_for, field in Hd.
  destruct message as [| | | | | | |props]; try discriminate Hm;
    simpl in Hm; injection Hm as <-.
  all: try discriminate Hresp.
  apply andb_false_iff in Hd as [Hd|Hd]; [congruence|].
  simpl in Hp. injection Hp as <-.
  destruct (default VUndef (lookup_prop "params" props)) as [| | | | | | |ps];
    try discriminate Hr; simpl in Hr; by injection Hr as <-.
Qed.


(** Assignments to one object: fuse them, then compare the objects. *)
Ltac same_object :=
  unfold assign; cbn -[js_times]; f_equal;
  rewrite ?list_alter_alter_eq;
  first [ rewrite !alter_snoc; reflexivity
        | apply list_alter_ext; [intros [] _; reflexivity | reflexivity] ].

Ltac net_steps :=
  rewrite ?run_cons, ?run_nil, ?deliver_frame;
  rewrite ?onMessage_Start, ?onMessage_Response, ?onMessage_Finish.

Ltac net_lookup Hk :=
  cbn -[js_times];
  repeat (rewrite ?Hk, ?String.eqb_refl, ?JsMap_get_set_eq
            by apply sameValueZero_str_refl;
          cbn -[js_times]).


Lemma entity_Some k s e :
  entity k s = Some e <->
  exists l, JsMap.get k (networkRequests s) = Some l /\ heap s !! l = Some e.
Proof.
  unfold entity. destruct (JsMap.get k (networkRequests s)) as [l|]; simpl.
  - split; [eauto | by intros (? & [= <-] & ?)].
  - split; [done | by intros (? & [=] & _)].
Qed.

Lemma deliver_frame_NoDup n ev s :
  NoDup (JsMap.keys (requests s)) /\ NoDup (JsMap.keys (networkRequests s)) ->
  NoDup (JsMap.keys (requests (deliver s (n, frame ev)))) /\
  NoDup (JsMap.keys (networkRequests (deliver s (n, frame ev)))).
Proof.
  intros [Hr Hn]. destruct ev as [k request ts ty|k response|k sz]; net_steps.
  - destruct (JsMap.get (VStr k) (requests s)) as [l|] eqn:Hk; simpl; [done|].
    split; [|done]. by apply JsMap_set_NoDup; [apply sameValueZero_str_refl|].
  - destruct (is_defined (field "encodedDataLength" response));
    destruct (JsMap.get (VStr k) (requests s)) as [l|] eqn:Hk; simpl;
      (split; [|by apply JsMap_set_NoDup; [apply sameValueZero_str_refl|]]);
      try done; by apply JsMap_set_NoDup; [apply sameValueZero_str_refl|].
  - by destruct (JsMap.get (VStr k) (networkRequests s)).
Qed.

Lemma run_frames_NoDup (evs : list (Z * event)) s :
  NoDup (JsMap.keys (requests s)) /\ NoDup (JsMap.keys (networkRequests s)) ->
  NoDup (JsMap.keys (requests (run ((fun d => (d.1, frame d.2)) <$> evs) s))) /\
  NoDup (JsMap.keys (networkRequests (run ((fun d => (d.1, frame d.2)) <$> evs) s))).
Proof.
  revert s. induction evs as [|[n ev] evs IH]; intros s Hs; [done|].
  rewrite fmap_cons, run_cons. apply IH. by apply deliver_frame_NoDup.
Qed.

(** C7, as the code has it. Two [loadingFinished] notifications in a row for
    a key with an entity in the table retrieval reads leave the size of that
    entity at the value they carry and every other field as it was; for a key
    that is not in that table, known from its start notification or not at
    all, they change nothing; they add no entry to either map; delivering
    any notification a second time leaves the aggregator exactly as the
    first delivery left it; and after any sequence of notifications no key
    occurs twice in the table retrieval reads. *)
Theorem finish_twice_idempotent :
  (forall s k sz n1 n2 e,
     entity (VStr k) s = Some e ->
     entity (VStr k)
       (run [(n1, frame (Finish k sz)); (n2, frame (Finish k sz))] s) =
     Some (mk (id e) (url e) (method e) (status e) (type e) sz (timestamp e)
              (requestHeaders e) (responseHeaders e))) /\
  (forall s k sz n1 n2,
     JsMap.get (VStr k) (networkRequests s) = None ->
     run [(n1, frame (Finish k sz)); (n2, frame (Finish k sz))] s = s) /\
  (forall s k sz n1 n2,
     let s' := run [(n1, frame (Finish k sz)); (n2, frame (Finish k sz))] s in
     networkRequests s' = networkRequests s /\ requests s' = requests s /\
     length (getNetworkRequests s') = length (getNetworkRequests s)) /\
  (forall s ev n1 n2,
     run [(n1, frame ev); (n2, frame ev)] s = run [(n1, frame ev)] s) /\
  (forall evs : list (Z * event),
     NoDup (JsMap.keys (networkRequests (run ((fun d => (d.1, frame d.2)) <$> evs) init)))).
Proof.
  split; [|split; [|split; [|split]]]; [| | | |intros evs; apply run_frames_NoDup;
                                            split; apply NoDup_nil_2].
  - intros s k sz n1 n2 e (l & Hk & Hl)%entity_Some. net_steps.
    unfold entity. net_lookup Hk.
    rewrite !list_lookup_alter_eq, Hl. reflexivity.
  - intros s k sz n1 n2 Hk. net_steps. by net_lookup Hk.
  - intros s k sz n1 n2 s'. subst s'. net_steps.
    destruct (JsMap.get (VStr k) (networkRequests s)) as [l|] eqn:Hk;
      net_lookup Hk; [|done].
    repeat split. unfold getNetworkRequests; simpl.
    rewrite !length_omap_alter_size. reflexivity.
  - intros s [k request ts ty|k response|k sz] n1 n2; net_steps.
    + destruct (JsMap.get (VStr k) (requests s)) as [l|] eqn:Hk;
        net_lookup Hk; same_object.
    + destruct (is_defined (field "encodedDataLength" response));
      destruct (JsMap.get (VStr k) (requests s)) as [l|] eqn:Hk;
        net_lookup Hk;
        rewrite JsMap_set_set by apply sameValueZero_str_refl; same_object.
    + destruct (JsMap.get (VStr k) (networkRequests s)) as [l|] eqn:Hk;
        net_lookup Hk; [same_object | done].
Qed.


End NetClaims.

(** *** Concrete runs of the network aggregator *)



(** C7: "r1" is known from its start notification only; two finish
    notifications with the size 500 leave its object without a size, and
    retrieval without the request. *)
Lemma finish_without_response_records_no_size :
  let s := Net.run
        [(0, Net.frame (Net.Start "r1" [("url", VStr "https://x"); ("method", VStr "GET")]
                          (VNum 7) (VStr "document")));
         (1, Net.frame (Net.Finish "r1" (VNum 500)));
         (2, Net.frame (Net.Finish "r1" (VNum 500)))] Net.init in
  NetworkRequest.size <$>
    (JsMap.get (VStr "r1") (Net.requests s) ≫= fun l => Net.heap s !! l) =
    Some VUndef /\
  Net.getNetworkRequests s = [].
Proof. by vm_compute. Qed.

Lemma finish_twice_idempotent_witness :
  let s := Net.run [(0, Net.frame (Net.Response "r1" [("status", VNum 200)]))]
             Net.init in
  let e := NetworkRequest.mk (VStr "r1") (VStr "") (VStr "GET") (VNum 200)
             VUndef VUndef (VNum 0) VUndef VUndef in
  Net.entity (VStr "r1") s = Some e /\
  Net.entity (VStr "r1")
    (Net.run [(1, Net.frame (Net.Finish "r1" (VNum 500)));
              (2, Net.frame (Net.Finish "r1" (VNum 500)))] s) =
  Some (NetworkRequest.mk (VStr "r1") (VStr "") (VStr "GET") (VNum 200)
          VUndef (VNum 500) (VNum 0) VUndef VUndef).
Proof.
  intros s e. split; [reflexivity|].
  exact (proj1 finish_twice_idempotent s "r1" (VNum 500) 1 2 e eq_refl).
Defined.



(** ** The session: promises, timers and listeners *)

Section SessionFacts.
Context `{JSRuntime}.
Import Session.


Lemma run_cons' e es s : run (e :: es) s = run es (exec e s).1.
Proof. reflexivity. Qed.

Lemma run_app' es1 es2 s : run (es1 ++ es2) s = run es2 (run es1 s).
Proof. apply foldl_app. Qed.

Lemma settle_other id j o ps : id <> j -> settle j o ps !! id = ps !! id.
Proof.
  intros Hne. unfold settle. destruct (ps !! j) as [[| |]|]; try done.
  by rewrite lookup_insert_ne.
Qed.

Lemma settle_pending id o ps :
  ps !! id = Some Pending -> settle id o ps !! id = Some o.
Proof. intros Hp. unfold settle. rewrite Hp. by rewrite lookup_insert_eq. Qed.

Lemma settle_settled id j o o' ps :
  ps !! id = Some o -> o <> Pending -> settle j o' ps !! id = Some o.
Proof.
  intros Hp Ho. destruct (decide (id = j)) as [<-|Hne].
  - unfold settle. rewrite Hp. by destruct o.
  - by rewrite settle_other.
Qed.

Lemma off_elem id ls l :
  l ∈ off id ls <-> l ∈ ls /\ is_handler_of id l = false.
Proof.
  unfold off. rewrite !list_elem_of_In, filter_In.
  by rewrite negb_true_iff.
Qed.

Lemma off_idemp id ls : off id (off id ls) = off id ls.
Proof.
  unfold off. induction ls as [|l ls IH]; simpl; [done|].
  destruct (negb (is_handler_of id l)) eqn:E; simpl; rewrite ?E, IH; done.
Qed.

Lemma settle_idemp id o ps : settle id o (settle id o ps) = settle id o ps.
Proof.
  unfold settle. destruct (ps !! id) as [[| |]|] eqn:E; rewrite ?E; try done.
  rewrite lookup_insert_eq. destruct o; [apply insert_insert_eq|done..].
Qed.

Lemma settled_by_idemp id o s :
  settled_by id o (settled_by id o s) = settled_by id o s.
Proof.
  unfold settled_by, with_promise_state; simpl.
  by rewrite off_idemp, settle_idemp, delete_delete_eq.
Qed.

Lemma messageHandler_cases id data s s' :
  messageHandler id data s = Normal s' ->
  s' = s \/ exists o, o <> Pending /\ s' = settled_by id o s.
Proof.
  unfold messageHandler. intros Hrun.
  destruct (JSON_parse data) as [message|]; [cbn in Hrun|discriminate].
  destruct (get message "id") as [mid|]; [cbn in Hrun|discriminate].
  destruct (strict_eq_num mid id); [|left; by injection Hrun as <-].
  destruct (get message "error") as [err|]; [cbn in Hrun|discriminate].
  destruct (truthy err).
  - destruct (get err "message") as [em|]; [cbn in Hrun|discriminate].
    injection Hrun as <-. right. eexists. split; [|reflexivity]. done.
  - destruct (get message "result") as [r|]; [cbn in Hrun|discriminate].
    injection Hrun as <-. right. eexists. split; [|reflexivity]. done.
Qed.

(** A listener leaves the id counter alone and never touches a promise that
    is settled. *)
Lemma invoke_settled l tk data s s' :
  invoke l tk data s = Normal s' ->
  messageId s' = messageId s /\
  forall id o, promises s !! id = Some o -> o <> Pending ->
               promises s' !! id = Some o.
Proof.
  destruct l as [j m| |c]; simpl; intros Hrun.
  - apply messageHandler_cases in Hrun as [->|(o' & _ & ->)]; [done|].
    split; [done|]. intros id o Hp Ho. simpl. by eapply settle_settled.
  - destruct (Console.onMessage _ _ _); [cbn in Hrun|discriminate].
    by injection Hrun as <-.
  - destruct (Net.onMessage _ _ _); [cbn in Hrun|discriminate].
    by injection Hrun as <-.
Qed.

Lemma emit_from_settled ls i clock data s :
  messageId (emit_from ls i clock data s).1 = messageId s /\
  forall id o, promises s !! id = Some o -> o <> Pending ->
               promises (emit_from ls i clock data s).1 !! id = Some o.
Proof.
  revert i s. induction ls as [|l ls IH]; intros i s; simpl; [done|].
  destruct (invoke l (clock i) data s) as [s'|] eqn:E; [|done].
  apply invoke_settled in E as [Hid Hps].
  destruct (IH (S i) s') as [Hid' Hps']. split; [congruence|]. eauto.
Qed.

(** Once settled, always settled the same way. *)
Lemma exec_settled e s id o :
  promises s !! id = Some o -> o <> Pending -> (id < messageId s)%Z ->
  promises (exec e s).1 !! id = Some o /\ (id < messageId (exec e s).1)%Z.
Proof.
  intros Hp Ho Hid. destruct e as [m p|clock data|j| | |]; simpl; try done.
  - split; [|lia]. rewrite lookup_insert_ne by lia. done.
  - destruct (emit_from_settled (listeners s) 0 clock data s) as [Hid' Hps].
    unfold emit. split; [eauto|lia].
  - unfold timeout. destruct (timers s !! j); [|done]. simpl.
    split; [by eapply settle_settled|done].
Qed.

Lemma run_settled es s id o :
  promises s !! id = Some o -> o <> Pending -> (id < messageId s)%Z ->
  promises (run es s) !! id = Some o.
Proof.
  revert s. induction es as [|e es IH]; intros s Hp Ho Hid; [done|].
  rewrite run_cons'. destruct (exec_settled e s id o Hp Ho Hid). by apply IH.
Qed.

(** *** Replies *)

Lemma eta s :
  mk (messageId s) (consoleMessages s) (networkRequests s) (heap s)
     (closures s) (listeners s) (timers s) (promises s) (sent s) (closed s) = s.
Proof. by destruct s. Qed.

Lemma invoke_reply l tk data s :
  is_reply data = true ->
  invoke l tk data s =
  Normal match l with
         | CommandListener j _ =>
             match verdict j data with
             | Some o => settled_by j o s
             | None => s
             end
         | _ => s
         end.
Proof.
  destruct data as [|[| | | | | | |props]]; try discriminate. simpl.
  intros Hm%negb_true_iff.
  destruct l as [j m| |c]; simpl.
  - unfold messageHandler; cbn.
    destruct (strict_eq_num _ j); [|done].
    destruct (truthy (default VUndef (lookup_prop "error" props))) eqn:Ht.
    + destruct (default VUndef (lookup_prop "error" props)); try discriminate Ht;
        reflexivity.
    + reflexivity.
  - unfold Console.onMessage; cbn.
    destruct (default VUndef (lookup_prop "method" props)); try discriminate Hm.
    cbn. by rewrite eta.
  - unfold Net.onMessage; cbn.
    destruct (default VUndef (lookup_prop "method" props)); try discriminate Hm.
    cbn. destruct (closures s !! c) as [r|] eqn:Hc; simpl.
    + rewrite list_insert_id by done. by rewrite eta.
    + rewrite list_insert_ge by by apply lookup_ge_None. by rewrite eta.
Qed.

Lemma verdict_addressee id data o :
  verdict id data = Some o -> addressee data = Some (id, o).
Proof.
  destruct data as [|[| | | | | | |props]]; try discriminate.
  unfold addressee. simpl.
  destruct (default VUndef (lookup_prop "id" props)) as [| | |n| | | |];
    try discriminate. simpl.
  destruct (n =? id)%Z eqn:E; [|discriminate].
  apply Z.eqb_eq in E. subst n. rewrite Z.eqb_refl.
  destruct (truthy _); by intros [= <-].
Qed.

Lemma addressee_verdict data n o id :
  addressee data = Some (n, o) ->
  verdict id data = if decide (id = n) then Some o else None.
Proof.
  destruct data as [|[| | | | | | |props]]; try discriminate.
  unfold addressee. simpl.
  destruct (default VUndef (lookup_prop "id" props)) as [| | |k| | | |];
    try discriminate. unfold strict_eq_num. rewrite Z.eqb_refl.
  intros Ho. assert (k = n) as -> by (destruct (truthy _); congruence).
  destruct (decide (id = n)) as [->|Hne].
  - rewrite Z.eqb_refl. destruct (truthy _); congruence.
  - destruct (n =? id)%Z eqn:E; [|done]. apply Z.eqb_eq in E. congruence.
Qed.

Lemma addressee_none data id :
  addressee data = None -> verdict id data = None.
Proof.
  intros Ha. destruct (verdict id data) eqn:E; [|done].
  apply verdict_addressee in E. congruence.
Qed.

Lemma verdict_not_pending id data o : verdict id data = Some o -> o <> Pending.
Proof.
  destruct data as [|[| | | | | | |props]]; try discriminate. simpl.
  destruct (strict_eq_num _ id); [|discriminate].
  destruct (truthy _); by intros [= <-].
Qed.

(** The dispatch of a reply: nobody throws, and the handlers of the call it
    is addressed to, if registered, settle that call. *)
Lemma emit_from_reply ls i clock data s :
  is_reply data = true ->
  emit_from ls i clock data s =
  (match addressee data with
   | Some (n, o) => if existsb (is_handler_of n) ls then settled_by n o s else s
   | None => s
   end, None).
Proof.
  intros Hr. revert i s. induction ls as [|l ls IH]; intros i s; simpl.
  - by destruct (addressee data) as [[n o]|].
  - rewrite invoke_reply by done. rewrite IH.
    destruct (addressee data) as [[n o]|] eqn:Ha.
    + destruct l as [j m| |c]; simpl; try done.
      rewrite (addressee_verdict _ _ _ j Ha).
      destruct (decide (j = n)) as [->|Hne].
      * rewrite Z.eqb_refl. simpl.
        destruct (existsb _ ls); by rewrite ?settled_by_idemp.
      * destruct (j =? n)%Z eqn:E; [apply Z.eqb_eq in E; congruence|]. done.
    + destruct l as [j m| |c]; simpl; try done.
      by rewrite (addressee_none _ j Ha).
Qed.

(** *** Outstanding calls *)

Lemma outstanding_call m p s :
  outstanding (messageId s) m (exec (Call m p) s).1.
Proof.
  unfold outstanding; simpl. rewrite !lookup_insert_eq. repeat split; try lia.
  apply elem_of_app. right. left.
Qed.

Lemma outstanding_settled_by id m n o s :
  n <> id -> outstanding id m s -> outstanding id m (settled_by n o s).
Proof.
  intros Hne (Hp & Ht & Hl & Hid). unfold outstanding; simpl.
  rewrite settle_other by done. rewrite lookup_delete_ne by done.
  repeat split; try done. apply off_elem. split; [done|].
  simpl. destruct (id =? n)%Z eqn:E; [|done]. apply Z.eqb_eq in E. congruence.
Qed.

Lemma settled_by_done id m o s :
  outstanding id m s ->
  promises (settled_by id o s) !! id = Some o /\
  timers (settled_by id o s) !! id = None /\
  (forall m', CommandListener id m' ∉ listeners (settled_by id o s)) /\
  messageId (settled_by id o s) = messageId s.
Proof.
  intros (Hp & Ht & Hl & Hid). simpl. repeat split.
  - by apply settle_pending.
  - apply lookup_delete_eq.
  - intros m' [_ Hm']%off_elem. simpl in Hm'. by rewrite Z.eqb_refl in Hm'.
Qed.

Lemma handler_registered id m ls :
  CommandListener id m ∈ ls -> existsb (is_handler_of id) ls = true.
Proof.
  intros Hl. apply existsb_exists. exists (CommandListener id m).
  split; [by apply list_elem_of_In|]. simpl. apply Z.eqb_refl.
Qed.

Lemma messageHandler_unaddressed id data s s' :
  verdict id data = None -> messageHandler id data s = Normal s' -> s' = s.
Proof.
  unfold messageHandler. intros Hv Hrun.
  destruct data as [|message]; [discriminate|]. cbn in Hrun.
  destruct message as [| | | | | | |props]; cbn in Hrun;
    try discriminate Hrun; try by injection Hrun as <-.
  simpl in Hv. destruct (strict_eq_num _ id).
  - by destruct (truthy _).
  - by injection Hrun as <-.
Qed.

Lemma invoke_bystander id m l tk data s s' :
  verdict id data = None -> outstanding id m s ->
  invoke l tk data s = Normal s' -> outstanding id m s'.
Proof.
  intros Hv Hout. destruct l as [j mj| |c]; simpl; intros Hrun.
  - destruct (decide (j = id)) as [->|Hne].
    + by apply messageHandler_unaddressed in Hrun as ->.
    + apply messageHandler_cases in Hrun as [->|(o & _ & ->)]; [done|].
      by apply outstanding_settled_by.
  - destruct (Console.onMessage _ _ _); [cbn in Hrun|discriminate].
    by injection Hrun as <-.
  - destruct (Net.onMessage _ _ _); [cbn in Hrun|discriminate].
    by injection Hrun as <-.
Qed.

Lemma emit_from_bystander id m ls i clock data s :
  verdict id data = None -> outstanding id m s ->
  outstanding id m (emit_from ls i clock data s).1.
Proof.
  intros Hv. revert i s. induction ls as [|l ls IH]; intros i s Hout; simpl; [done|].
  destruct (invoke l (clock i) data s) as [s'|] eqn:E; [|done].
  apply IH. by eapply invoke_bystander.
Qed.

(** An event that does not concern an outstanding call leaves it
    outstanding. *)
Lemma exec_bystander id m e s :
  outstanding id m s -> bystander id e = true ->
  outstanding id m (exec e s).1.
Proof.
  intros Hout Hby. pose proof Hout as (Hp & Ht & Hl & Hid).
  destruct e as [m' p|clock data|j| | |]; simpl in *.
  - unfold outstanding; simpl.
    rewrite !lookup_insert_ne by lia. repeat split; try done; try lia.
    apply elem_of_app. by left.
  - apply emit_from_bystander; [|done]. by destruct (verdict id data).
  - apply negb_true_iff, Z.eqb_neq in Hby.
    unfold timeout. destruct (timers s !! j); [|done].
    by apply (outstanding_settled_by id m j).
  - done.
  - unfold outstanding; simpl. repeat split; try done.
    apply elem_of_app. by left.
  - unfold outstanding; simpl. repeat split; try done.
    apply elem_of_app. by left.
Qed.

Lemma run_bystanders id m es s :
  outstanding id m s -> Forall (fun e => bystander id e = true) es ->
  outstanding id m (run es s).
Proof.
  intros Hout Hes. revert s Hout.
  induction Hes as [|e es He Hes IH]; intros s Hout; [done|].
  rewrite run_cons'. apply IH. by apply exec_bystander.
Qed.

(** The reply addressed to an outstanding call settles it. *)
Lemma exec_reply id m clock data o s :
  outstanding id m s -> is_reply data = true -> verdict id data = Some o ->
  exec (Message clock data) s = (settled_by id o s, None).
Proof.
  intros Hout Hr Hv. simpl. unfold emit. rewrite emit_from_reply by done.
  rewrite (verdict_addressee _ _ _ Hv).
  destruct Hout as (_ & _ & Hl & _). by rewrite (handler_registered _ _ _ Hl).
Qed.

(** The timer of an outstanding call rejects it. *)
Lemma exec_timer id m s :
  outstanding id m s ->
  exec (TimerFires id) s =
  (settled_by id (Rejected (Error ("Command timeout: " +:+ m))) s, None).
Proof.
  intros (_ & Ht & _). simpl. unfold timeout. by rewrite Ht.
Qed.
End SessionFacts.

Section SessionClaims.
Context `{JSRuntime}.
Import Session.

Lemma calls_bystanders id cmds :
  Forall (fun e => bystander id e = true) (calls cmds).
Proof. apply Forall_forall. by intros e (c & -> & _)%list_elem_of_fmap. Qed.

Lemma run_calls_messageId cmds s :
  messageId (run (calls cmds) s) = (messageId s + Z.of_nat (length cmds))%Z.
Proof.
  revert s. induction cmds as [|c cmds IH]; intros s.
  - cbn. lia.
  - change (calls (c :: cmds)) with (Call c.1 c.2 :: calls cmds).
    rewrite run_cons', IH. cbn [length]. simpl. lia.
Qed.

Lemma run_calls_outstanding cmds s i m p :
  cmds !! i = Some (m, p) ->
  outstanding (messageId s + Z.of_nat i) m (run (calls cmds) s).
Proof.
  revert s i. induction cmds as [|c cmds IH]; intros s [|i] Hi; try done.
  - injection Hi as ->. simpl calls. rewrite run_cons', Z.add_0_r.
    apply run_bystanders; [apply outstanding_call | apply calls_bystanders].
  - simpl calls. rewrite run_cons'.
    replace (messageId s + Z.of_nat (S i))%Z
      with (messageId (exec (Call c.1 c.2) s).1 + Z.of_nat i)%Z by (simpl; lia).
    by apply IH.
Qed.

Lemma verdict_result_frame id n r :
  verdict id (result_frame n r) = if (n =? id)%Z then Some (Fulfilled r) else None.
Proof. reflexivity. Qed.

Lemma result_for_cons id n r rs :
  result_for id ((n, r) :: rs) = if (n =? id)%Z then Some r else result_for id rs.
Proof. unfold result_for. simpl. by destruct (n =? id)%Z. Qed.

Lemma run_results id m clock rs s :
  outstanding id m s ->
  promises (run (results clock rs) s) !! id =
  Some (from_option Fulfilled Pending (result_for id rs)).
Proof.
  revert s. induction rs as [|[n r] rs IH]; intros s Hout.
  - by destruct Hout.
  - change (results clock ((n, r) :: rs))
      with (Message clock (result_frame n r) :: results clock rs).
    rewrite run_cons', result_for_cons.
    destruct (n =? id)%Z eqn:E.
    + rewrite (exec_reply id m _ _ (Fulfilled r)); try done;
        [|by rewrite verdict_result_frame, E].
      destruct (settled_by_done id m (Fulfilled r) s Hout) as (Hp & _ & _ & Hid).
      apply run_settled; [done..|]. by destruct Hout as (_ & _ & _ & ?).
    + apply IH. apply exec_bystander; [done|].
      simpl. by rewrite E.
Qed.

Lemma result_for_Some id rs r :
  NoDup rs.*1 -> result_for id rs = Some r <-> (id, r) ∈ rs.
Proof.
  induction rs as [|[n x] rs IH]; intros Hnd.
  - split; [done|]. by intros ?%elem_of_nil.
  - rewrite fmap_cons in Hnd. apply NoDup_cons in Hnd as [Hn Hnd].
    rewrite result_for_cons. destruct (n =? id)%Z eqn:E.
    + apply Z.eqb_eq in E. subst n. simpl. split.
      * intros [= ->]. left.
      * intros [[= ->]|Hin]%elem_of_cons; [done|].
        exfalso. apply Hn. apply list_elem_of_fmap. by exists (id, r).
    + rewrite (IH Hnd). apply Z.eqb_neq in E. split.
      * by right.
      * intros [[= -> ->]|Hin]%elem_of_cons; [done|done].
Qed.

Lemma result_for_perm id rs rs' :
  NoDup rs.*1 -> rs ≡ₚ rs' -> result_for id rs = result_for id rs'.
Proof.
  intros Hnd Hperm.
  assert (NoDup rs'.*1) as Hnd' by (by rewrite <- Hperm).
  destruct (result_for id rs) as [r|] eqn:E.
  - symmetry. apply result_for_Some; [done|]. rewrite <- Hperm.
    by apply result_for_Some.
  - destruct (result_for id rs') as [r'|] eqn:E'; [|done].
    apply result_for_Some in E'; [|done]. rewrite <- Hperm in E'.
    apply result_for_Some in E'; [|done]. congruence.
Qed.

(** C1. After a batch of calls, whatever the session did before, the result
    frames of a batch of replies settle each call of the batch with the
    result that carries its id, and leave a call without a reply pending; a
    reordering of the replies changes none of the outcomes. More generally a
    call of the batch is fulfilled with the result of the first frame that
    carries its id, whatever else (later calls, replies to other calls,
    notifications, malformed frames, timers of other calls) happens before
    that frame and whatever happens after it. *)
Theorem replies_matched_by_id s cmds clock rs i m p :
  cmds !! i = Some (m, p) ->
  let id := (messageId s + Z.of_nat i)%Z in
  (sendCommand m p (run (calls (take i cmds)) s)).1 = id /\
  promises (run (calls cmds ++ results clock rs) s) !! id =
    Some (from_option Fulfilled Pending (result_for id rs)) /\
  (forall rs', NoDup rs.*1 -> rs ≡ₚ rs' ->
     promises (run (calls cmds ++ results clock rs') s) !! id =
     promises (run (calls cmds ++ results clock rs) s) !! id) /\
  (forall others r rest,
     Forall (fun e => bystander id e = true) others ->
     promises (run (calls cmds ++ others ++
                    Message clock (result_frame id r) :: rest) s) !! id =
     Some (Fulfilled r)).
Proof.
  intros Hi id. pose proof (run_calls_outstanding cmds s i m p Hi) as Hout.
  split; [|split; [|split]].
  - simpl. rewrite run_calls_messageId, length_take.
    apply lookup_lt_Some in Hi. subst id. lia.
  - rewrite run_app'. by apply (run_results id m).
  - intros rs' Hnd Hperm. rewrite !run_app'.
    rewrite !(run_results id m) by done. by rewrite (result_for_perm id rs rs').
  - intros others r rest Hothers. rewrite !run_app', run_cons'.
    pose proof (run_bystanders id m others _ Hout Hothers) as Hout'.
    rewrite (exec_reply id m _ _ (Fulfilled r)); try done;
      [|by rewrite verdict_result_frame, Z.eqb_refl].
    destruct (settled_by_done id m (Fulfilled r) _ Hout') as (Hp & _ & _ & Hid).
    apply run_settled; [done..|]. by destruct Hout' as (_ & _ & _ & ?).
Qed.

Lemma run_call_quiet s m p quiet :
  Forall (fun e => bystander (messageId s) e = true) quiet ->
  outstanding (messageId s) m (run (Call m p :: quiet) s).
Proof.
  intros Hq. rewrite run_cons'.
  apply run_bystanders; [apply outstanding_call | done].
Qed.


(** C4, as the code has it. The close of the socket changes nothing but the
    ready state: a call pending at that moment stays pending, with its
    handler registered and its timer armed, and is rejected only when that
    timer fires, with the timeout error. *)
Theorem close_leaves_calls_pending s m p quiet :
  let id := messageId s in
  Forall (fun e => bystander id e = true) quiet ->
  (forall s0,
     let s1 := (exec Close s0).1 in
     promises s1 = promises s0 /\ timers s1 = timers s0 /\
     listeners s1 = listeners s0 /\ (exec Close s0).2 = None) /\
  outstanding id m (run (Call m p :: quiet ++ [Close]) s) /\
  (forall rest,
     promises (run (Call m p :: quiet ++ Close :: TimerFires id :: rest) s) !! id =
     Some (Rejected (Error ("Command timeout: " +:+ m)))).
Proof.
  intros id Hq. split; [done|].
  assert (Forall (fun e => bystander id e = true) (quiet ++ [Close])) as Hq'.
  { apply Forall_app. split; [done|]. by repeat constructor. }
  split; [by apply run_call_quiet|].
  intros rest.
  pose proof (one_step_timeout := run_call_quiet s m p _ Hq').
  replace (Call m p :: quiet ++ Close :: TimerFires id :: rest)
    with ((Call m p :: quiet ++ [Close]) ++ TimerFires id :: rest)
    by (simpl; by rewrite <- app_assoc).
  rewrite run_app', run_cons'.
  rewrite (exec_timer id m) by done.
  destruct (settled_by_done id m (Rejected (Error ("Command timeout: " +:+ m)))
              _ one_step_timeout) as (Hp & _ & _ & Hid).
  apply run_settled; [done..|]. by destruct one_step_timeout as (_ & _ & _ & ?).
Qed.

Lemma invoke_garbled l tk text s :
  invoke l tk (Garbled text) s = Throw SyntaxError.
Proof. by destruct l. Qed.

(** C2, as the code has it. A frame that is not JSON makes the first
    registered listener throw a [SyntaxError] that leaves the dispatch (with
    no listener registered nothing runs and nothing is thrown); no listener
    changes anything for that frame, so the session afterwards is the one
    that never received it. A frame that parses to an object with neither
    [id] nor [method] is dropped without an exception. *)
Theorem garbled_frame_throws s clock text :
  exec (Message clock (Garbled text)) s =
    (s, match listeners s with [] => None | _ => Some SyntaxError end) /\
  (forall es1 es2 s0,
     run (es1 ++ Message clock (Garbled text) :: es2) s0 = run (es1 ++ es2) s0) /\
  (forall props,
     lookup_prop "id" props = None -> lookup_prop "method" props = None ->
     exec (Message clock (Json (VObj props))) s = (s, None)).
Proof.
  assert (forall s1, exec (Message clock (Garbled text)) s1 =
    (s1, match listeners s1 with [] => None | _ => Some SyntaxError end)) as Hg.
  { intros s1. simpl. unfold emit. destruct (listeners s1) as [|l ls]; [done|].
    simpl. by rewrite invoke_garbled. }
  split; [apply Hg|]. split.
  - intros es1 es2 s0. rewrite !run_app', run_cons'. by rewrite Hg.
  - intros props Hid Hm. simpl. unfold emit.
    rewrite emit_from_reply by (simpl; by rewrite Hm).
    unfold addressee. by rewrite Hid.
Qed.
End SessionClaims.

(** *** Concrete runs of a session *)

(** C1: three calls with ids 1, 2, 3 answered in the order 3, 1, 2. *)
Lemma replies_matched_by_id_witness :
  let cmds := [("Runtime.enable", VUndef); ("DOM.enable", VUndef);
               ("Page.enable", VUndef)] in
  let rs := [(3, VStr "c"); (1, VStr "a"); (2, VStr "b")] in
  cmds !! 1%nat = Some ("DOM.enable", VUndef) /\
  Session.promises
    (Session.run (Session.calls cmds ++ Session.results (fun _ => mkTick 0 "" 0) rs)
       Session.init) !! 2 = Some (Session.Fulfilled (VStr "b")).
Proof.
  intros cmds rs. split; [reflexivity|].
  exact (proj1 (proj2 (replies_matched_by_id Session.init cmds
                         (fun _ => mkTick 0 "" 0) rs 1 "DOM.enable" VUndef
                         eq_refl))).
Defined.


(** C4: the socket closes while call 1 is pending; the call stays pending,
    handler and timer in place. *)
Lemma pending_call_survives_close :
  let s := Session.run [Session.Call "Runtime.enable" VUndef; Session.Close]
             Session.init in
  Session.closed s = true /\
  Session.promises s !! 1 = Some Session.Pending /\
  Session.timers s !! 1 = Some "Runtime.enable" /\
  Session.listeners s = [Session.CommandListener 1 "Runtime.enable"].
Proof. by vm_compute. Qed.

Lemma close_leaves_calls_pending_witness :
  Forall (fun e => Session.bystander 1 e = true) [] /\
  Session.outstanding 1 "Runtime.enable"
    (Session.run ([Session.Call "Runtime.enable" VUndef] ++ [Session.Close])
       Session.init).
Proof.
  split; [constructor|].
  exact (proj1 (proj2 (close_leaves_calls_pending Session.init "Runtime.enable"
                         VUndef [] (List.Forall_nil _)))).
Defined.

(** C2: with the console listener registered, a frame that is not JSON
    makes the dispatch throw. *)
Lemma garbled_frame_escapes :
  Session.exec (Session.Message (fun _ => mkTick 0 "" 0) (Garbled "{oops"))
    (Session.run [Session.SetupConsole] Session.init) =
  (Session.run [Session.SetupConsole] Session.init, Some SyntaxError).
Proof. reflexivity. Qed.

Lemma garbled_frame_throws_witness :
  lookup_prop "id" [("sessionId", VStr "x")] = None /\
  lookup_prop "method" [("sessionId", VStr "x")] = None /\
  Session.exec (Session.Message (fun _ => mkTick 0 "" 0)
                  (Json (VObj [("sessionId", VStr "x")])))
    (Session.run [Session.SetupConsole; Session.SetupNetwork] Session.init) =
  (Session.run [Session.SetupConsole; Session.SetupNetwork] Session.init, None).
Proof.
  split; [reflexivity|]. split; [reflexivity|].
  exact (proj2 (proj2 (garbled_frame_throws
                         (Session.run [Session.SetupConsole; Session.SetupNetwork]
                            Session.init)
                         (fun _ => mkTick 0 "" 0) ""))
           [("sessionId", VStr "x")] eq_refl eq_refl).
Defined.

(** ** The console aggregator *)

Section ConsoleClaims.
Context `{JSRuntime}.
Import ConsoleMessage Console.

Lemma strict_eq_str_inj v a b :
  strict_eq_str v a = true -> strict_eq_str v b = true -> a = b.
Proof.
  destruct v; try discriminate. simpl.
  intros ->%String.eqb_eq ->%String.eqb_eq. done.
Qed.

Lemma deliver_entry m tk data :
  deliver m (tk, data) =
  match entry_of tk data with Some e => store e m | None => m end.
Proof.
  unfold deliver, onMessage, entry_of. simpl.
  destruct data as [|[| | | | | | |props]]; try reflexivity.
  cbn -[consoleAPICalled exceptionThrown].
  set (method := default VUndef (lookup_prop "method" props)).
  destruct (strict_eq_str method "Runtime.consoleAPICalled") eqn:E1.
  - assert (strict_eq_str method "Runtime.exceptionThrown" = false) as E2.
    { destruct (strict_eq_str method "Runtime.exceptionThrown") eqn:E2; [|done].
      by pose proof (strict_eq_str_inj _ _ _ E1 E2). }
    destruct (consoleAPICalled tk (VObj props)); cbn; by rewrite ?E2.
  - cbn -[exceptionThrown].
    destruct (strict_eq_str method "Runtime.exceptionThrown"); [|done].
    by destruct (exceptionThrown tk (VObj props)).
Qed.

Lemma JsMap_get_absent {V} (m : JsMap.t V) k :
  k ∉ JsMap.keys m -> JsMap.get k m = None.
Proof.
  unfold JsMap.keys. induction m as [|[k' v] m IH]; [done|].
  rewrite fmap_cons. simpl. intros Hk. apply not_elem_of_cons in Hk as [Hne Hk].
  destruct (sameValueZero k' k) eqn:E; [|by apply IH].
  apply sameValueZero_eq in E. simpl in Hne. congruence.
Qed.

Lemma run_entries ds m :
  NoDup (JsMap.keys m ++ ((fun e => VStr (id e)) <$> entries ds)) ->
  run ds m = m ++ ((fun e => (VStr (id e), e)) <$> entries ds).
Proof.
  revert m. induction ds as [|[tk data] ds IH]; intros m Hnd.
  - simpl. by rewrite app_nil_r.
  - change (run ((tk, data) :: ds) m) with (run ds (deliver m (tk, data))).
    rewrite deliver_entry. unfold entries in *. simpl in *.
    destruct (entry_of tk data) as [e|]; [|by apply IH].
    rewrite fmap_cons in *. unfold store.
    rewrite JsMap_set_absent.
    + rewrite IH.
      * by rewrite <- app_assoc.
      * unfold JsMap.keys in *. rewrite fmap_app. simpl.
        by rewrite <- app_assoc.
    + apply JsMap_get_absent. apply NoDup_app in Hnd as (_ & Hnd & _).
      intros Hin. apply (Hnd _ Hin). left.
Qed.

Lemma filter_sublist {A} (f : A -> bool) (l : list A) :
  sublist (List.filter f l) l.
Proof.
  induction l as [|x l IH]; simpl; [constructor|].
  destruct (f x); by constructor.
Qed.

Lemma filterByType_projection ty messages :
  sublist (filterByType ty messages) messages /\
  forall m, m ∈ filterByType ty messages <->
            m ∈ messages /\
            (forall t, ty = Some t -> t <> "" -> type m = VStr t).
Proof.
  unfold filterByType.
  destruct ty as [t|]; [|split; [done|]; intros m; split; [by split|tauto]].
  simpl. destruct (String.eqb_spec t "") as [->|Hne]; simpl.
  - split; [done|]. intros m. split; [|tauto].
    intros Hm. split; [done|]. by intros ? [= <-].
  - split; [apply filter_sublist|]. intros m.
    rewrite list_elem_of_In, filter_In, <- list_elem_of_In.
    split.
    + intros [Hm Ht]. split; [done|]. intros ? [= <-] _.
      destruct (type m); try discriminate. simpl in Ht.
      by apply String.eqb_eq in Ht as ->.
    + intros [Hm Ht]. split; [done|]. rewrite (Ht t eq_refl Hne).
      simpl. apply String.eqb_refl.
Qed.

Lemma run_distinct_ids ds :
  NoDup (id <$> entries ds) ->
  getConsoleMessages (run ds JsMap.empty) = entries ds.
Proof.
  intros Hnd. rewrite run_entries.
  - unfold getConsoleMessages, JsMap.values, JsMap.empty. simpl.
    rewrite <- list_fmap_compose. apply list_fmap_id.
  - simpl. rewrite (list_fmap_compose id VStr).
    apply NoDup_fmap; [|done]. by intros ?? [=].
Qed.
End ConsoleClaims.

(** ** Page lookup *)

Section PageClaims.
Import Page Pages.

Lemma prefix_spec (a s : string) :
  String.prefix a s = true <-> exists b, s = a +:+ b.
Proof.
  revert s. induction a as [|c a IH]; intros [|d s]; simpl.
  - split; [by exists ""|done].
  - split; [by eexists|done].
  - split; [done|by intros [? [=]]].
  - destruct (Ascii.ascii_dec c d) as [->|Hne].
    + rewrite IH. split; intros [b Hb]; exists b.
      * by rewrite Hb.
      * by injection Hb.
    + split; [done|]. intros [b [=]]. congruence.
Qed.

Lemma includes_spec (s sub : string) :
  includes s sub = true <-> exists a b, s = a +:+ sub +:+ b.
Proof.
  induction s as [|c s IH]; cbn [includes].
  - rewrite orb_false_r, prefix_spec. split.
    + intros [b Hb]. by exists "", b.
    + intros ([|? a] & b & Hab); [by exists b | discriminate].
  - rewrite orb_true_iff, prefix_spec, IH. split.
    + intros [[b Hb]|(a & b & ->)].
      * by exists "", b.
      * by exists (String c a), b.
    + intros ([|d a] & b & Hab).
      * left. by exists b.
      * right. injection Hab as -> ->. by exists a, b.
Qed.

Lemma matches_page_spec sel p :
  String.eqb (type p) "page" && matches sel p = true <-> eligible sel p.
Proof.
  unfold matches, eligible.
  rewrite andb_true_iff, orb_true_iff, !String.eqb_eq, includes_spec. done.
Qed.

Lemma find_filter {A} (f g : A -> bool) (l : list A) :
  List.find f (List.filter g l) = List.find (fun x => g x && f x) l.
Proof.
  induction l as [|x l IH]; simpl; [done|].
  destruct (g x); simpl; [|done]. by rewrite IH.
Qed.

Lemma find_first {A} (f : A -> bool) (l : list A) (x : A) :
  List.find f l = Some x <->
  exists before after,
    l = before ++ x :: after /\ f x = true /\
    Forall (fun y => f y = false) before.
Proof.
  induction l as [|y l IH]; simpl.
  - split; [done|]. by intros ([|??] & ? & ? & _).
  - destruct (f y) eqn:E.
    + split.
      * intros [= ->]. by exists [], l.
      * intros ([|z before] & after & Hl & Hx & Hb).
        -- by injection Hl as -> _.
        -- injection Hl as -> _. apply Forall_cons in Hb as [Hz _]. congruence.
    + rewrite IH. split.
      * intros (before & after & -> & Hx & Hb). exists (y :: before), after.
        repeat split; [done|]. by constructor.
      * intros ([|z before] & after & Hl & Hx & Hb).
        -- injection Hl as -> _. congruence.
        -- injection Hl as -> ->. apply Forall_cons in Hb as [_ Hb].
           by exists before, after.
Qed.

Lemma find_none {A} (f : A -> bool) (l : list A) :
  List.find f l = None <-> Forall (fun y => f y = false) l.
Proof.
  induction l as [|y l IH]; simpl; [by split; [constructor|]|].
  destruct (f y) eqn:E.
  - split; [done|]. intros [Hy _]%Forall_cons. congruence.
  - rewrite IH. split; [by constructor|]. by intros [_ ?]%Forall_cons.
Qed.

(** C10. [findPage] asks the directory and nothing else. When the directory
    answers, it returns a page exactly if that page is the first entry of
    the list that has type 'page' and whose id is the selector or whose
    title contains it; when no entry is like that it throws
    'Page not found', and the command that called it opens no channel. *)
Theorem findPage_first_eligible cdpUrl directory sel :
  (findPage cdpUrl directory sel).1 = [Fetch (cdpUrl +:+ "/json")] /\
  (forall p,
     (findPage cdpUrl directory sel).2 = Normal p <->
     ok directory = true /\
     exists before after,
       json directory = before ++ p :: after /\ eligible sel p /\
       Forall (fun q => ~ eligible sel q) before) /\
  (ok directory = true ->
   Forall (fun q => ~ eligible sel q) (json directory) ->
   (findPage cdpUrl directory sel).2 = Throw (Error ("Page not found: " +:+ sel)) /\
   (openPage cdpUrl directory sel).1 = [Fetch (cdpUrl +:+ "/json")]).
Proof.
  unfold openPage, findPage, getPages. simpl.
  split; [done|]. destruct (ok directory); simpl.
  - rewrite find_filter. split.
    + intros p. split.
      * intros Hp. split; [done|].
        destruct (List.find _ _) as [q|] eqn:E; [|discriminate].
        injection Hp as ->. apply find_first in E as (before & after & Hl & Hp & Hb).
        exists before, after. split; [done|]. split; [by apply matches_page_spec|].
        eapply Forall_impl; [exact Hb|]. intros q Hq Hel.
        apply matches_page_spec in Hel. congruence.
      * intros (_ & before & after & Hl & Hp & Hb).
        assert (List.find (fun x => String.eqb (type x) "page" && matches sel x)
                  (json directory) = Some p) as ->; [|done].
        apply find_first. exists before, after. split; [done|].
        split; [by apply matches_page_spec|].
        eapply Forall_impl; [exact Hb|]. intros q Hq.
        destruct (String.eqb (type q) "page" && matches sel q) eqn:E; [|done].
        by apply matches_page_spec in E.
    + intros _ Hnone.
      assert (List.find (fun x => String.eqb (type x) "page" && matches sel x)
                (json directory) = None) as ->; [|done].
      apply find_none. eapply Forall_impl; [exact Hnone|]. intros q Hq.
      destruct (String.eqb (type q) "page" && matches sel q) eqn:E; [|done].
      by apply matches_page_spec in E.
  - split; [|done]. intros p. split; [done|]. by intros [? _].
Qed.
End PageClaims.

Lemma findPage_first_eligible_witness :
  Pages.ok sample_directory = true /\
  Forall (fun q => ~ Pages.eligible "Web Worker" q) (Pages.json sample_directory) /\
  (Pages.openPage "http://localhost:9222" sample_directory "Web Worker").1 =
  [Pages.Fetch "http://localhost:9222/json"].
Proof.
  assert (Forall (fun q => ~ Pages.eligible "Web Worker" q)
            (Pages.json sample_directory)) as Hnone.
  { repeat constructor; intros Hel; apply matches_page_spec in Hel;
      by vm_compute in Hel. }
  split; [reflexivity|]. split; [exact Hnone|].
  exact (proj2 (proj2 (proj2 (findPage_first_eligible "http://localhost:9222"
                                sample_directory "Web Worker")) eq_refl Hnone)).
Defined.

Example findPage_Hub :
  (Pages.findPage "http://localhost:9222" sample_directory "Hub").2 =
  Normal (Page.mk "page2" "GitHub" "https://github.com" "page"
                  "ws://localhost:9222/devtools/page/page2").
Proof. reflexivity. Qed.

(** ** The scenarios of the specification and of the test suite *)

(** Scenario A: [invoke('Target.ping', {})] takes id 1, and the frame
    [{id: 1, result: {pong: true}}] fulfils it with [{pong: true}]. *)
Example scenario_A :
  let s := Session.run
             [Session.Call "Target.ping" (VObj []);
              Session.Message (fun _ => mkTick 0 "" 0)
                (Session.result_frame 1 (VObj [("pong", VBool true)]))]
             Session.init in
  Session.sent s = [VObj [("id", VNum 1); ("method", VStr "Target.ping");
                          ("params", VObj [])]] /\
  Session.promises s !! 1 = Some (Session.Fulfilled (VObj [("pong", VBool true)])) /\
  Session.listeners s = [] /\ Session.timers s = ∅.
Proof. by vm_compute. Qed.

(** The remote error of the test suite: the promise is rejected with the
    remote message. *)
Example remote_error :
  Session.promises
    (Session.run
       [Session.Call "Invalid.command" VUndef;
        Session.Message (fun _ => mkTick 0 "" 0)
          (Session.error_frame 1 (VObj [("message", VStr "Command not found")]))]
       Session.init) !! 1 =
  Some (Session.Rejected (Error "Command not found")).
Proof. by vm_compute. Qed.

(** Scenario B: response (status 200, no size), start, finish (size 4567)
    for the key "r1". *)
Example scenario_B :
  Net.getNetworkRequests
    (Net.run
       [(1700000000000, Net.frame (Net.Response "r1" [("status", VNum 200)]));
        (1700000000001, Net.frame (Net.Start "r1"
                           [("url", VStr "https://x"); ("method", VStr "GET")]
                           (VNum 12) VUndef));
        (1700000000002, Net.frame (Net.Finish "r1" (VNum 4567)))]
       Net.init) =
  [NetworkRequest.mk (VStr "r1") (VStr "https://x") (VStr "GET") (VNum 200)
     VUndef (VNum 4567) (VNum 12000) VUndef VUndef].
Proof. reflexivity. Qed.

(** The console fixtures of the test suite: a log call and an uncaught
    exception, in that order. *)
Example console_log_then_exception :
  let log := Json (VObj [("method", VStr "Runtime.consoleAPICalled");
                         ("params", VObj [("type", VStr "log");
                                          ("args", VArr [VObj [("type", VStr "string");
                                                               ("value", VStr "Hello")];
                                                         VObj [("type", VStr "string");
                                                               ("value", VStr "world")]]);
                                          ("timestamp", VNum 1234567890)])]) in
  let exception :=
    Json (VObj [("method", VStr "Runtime.exceptionThrown");
                ("params", VObj [("timestamp", VNum 1234567891);
                                 ("exceptionDetails",
                                  VObj [("text", VStr "Uncaught TypeError");
                                        ("lineNumber", VNum 42);
                                        ("url", VStr "https://example.com/app.js")])])]) in
  Console.getConsoleMessages
    (Console.run [(mkTick 5 "abcdefghi" 5, log); (mkTick 5 "jklmnopqr" 5, exception)]
       JsMap.empty) =
  [ConsoleMessage.mk "msg_5_abcdefghi" (VStr "log") (VNum 1234567890)
     (VStr "Hello world") "console-api" VUndef VUndef
     (VArr [VObj [("type", VStr "string"); ("value", VStr "Hello")];
            VObj [("type", VStr "string"); ("value", VStr "world")]]);
   ConsoleMessage.mk "msg_5_jklmnopqr" (VStr "error") (VNum 1234567891)
     (VStr "Uncaught TypeError") "exception" (VNum 42)
     (VStr "https://example.com/app.js") VUndef].
Proof. by vm_compute. Qed.

(** * Further properties of the code *)

(** ** The session beyond the claims *)

Section SessionMore.
Context `{JSRuntime}.
Import Session SessionView.

Lemma invoke_cases l tk data s s' :
  invoke l tk data s = Normal s' ->
  match l with
  | CommandListener j _ =>
      s' = s \/ exists o, o <> Pending /\ s' = settled_by j o s
  | ConsoleListener =>
      exists m, Console.onMessage tk data (consoleMessages s) = Normal m /\
        s' = mk (messageId s) m (networkRequests s) (heap s) (closures s)
                (listeners s) (timers s) (promises s) (sent s) (closed s)
  | NetworkListener c =>
      exists n,
        Net.onMessage (now tk) data
          (Net.mkState (heap s) (default JsMap.empty (closures s !! c))
                       (networkRequests s)) = Normal n /\
        s' = mk (messageId s) (consoleMessages s) (Net.networkRequests n)
                (Net.heap n) (<[c := Net.requests n]> (closures s))
                (listeners s) (timers s) (promises s) (sent s) (closed s)
  end.
Proof.
  destruct l as [j m| |c]; simpl; intros Hrun.
  - by apply messageHandler_cases in Hrun.
  - destruct (Console.onMessage _ _ _) as [m|]; [cbn in Hrun|discriminate].
    injection Hrun as <-. by exists m.
  - destruct (Net.onMessage _ _ _) as [n|]; [cbn in Hrun|discriminate].
    injection Hrun as <-. by exists n.
Qed.

(** A property of sessions that the handlers keep keeps through a
    dispatch. *)
Lemma emit_from_preserves (P : Session.t -> Prop) :
  (forall l tk data s s', P s -> invoke l tk data s = Normal s' -> P s') ->
  forall ls i clock data s, P s -> P (emit_from ls i clock data s).1.
Proof.
  intros Hinv ls. induction ls as [|l ls IH]; intros i clock data s Hs; simpl; [done|].
  destruct (invoke l (clock i) data s) as [s'|] eqn:E; [|done].
  apply IH. by apply (Hinv l (clock i) data s s').
Qed.

Lemma invoke_sent l tk data s s' :
  invoke l tk data s = Normal s' ->
  sent s' = sent s /\ messageId s' = messageId s.
Proof.
  intros Hrun%invoke_cases. destruct l as [j m| |c].
  - by destruct Hrun as [->|(o & _ & ->)].
  - by destruct Hrun as (m & _ & ->).
  - by destruct Hrun as (n & _ & ->).
Qed.

Lemma emit_from_sent ls i clock data s :
  sent (emit_from ls i clock data s).1 = sent s /\
  messageId (emit_from ls i clock data s).1 = messageId s.
Proof.
  apply (emit_from_preserves
           (fun s' => sent s' = sent s /\ messageId s' = messageId s)); [|done].
  intros l tk d s1 s2 [Hs Hm] [Hs' Hm']%invoke_sent. split; congruence.
Qed.

Lemma sent_ids_run es s :
  exists frames,
    sent (run es s) = sent s ++ frames /\
    omap sent_id frames =
      seqZ (messageId s) (Z.of_nat (length (List.filter is_call es))) /\
    length frames = length (List.filter is_call es) /\
    messageId (run es s) =
      (messageId s + Z.of_nat (length (List.filter is_call es)))%Z.
Proof.
  revert s. induction es as [|e es IH]; intros s.
  - exists []. simpl. rewrite app_nil_r. repeat split; try done. lia.
  - rewrite run_cons'. destruct (IH (exec e s).1) as (frames & Hs & Hids & Hlen & Hm).
    destruct e as [m p|clock data|j| | |]; simpl List.filter;
      try (exists frames; rewrite Hs, Hids, Hm, Hlen; simpl; unfold emit, timeout;
           try (destruct (emit_from_sent (listeners s) 0 clock data s) as [-> ->]);
           try (destruct (timers s !! j)); done).
    exists (VObj [("id", VNum (messageId s)); ("method", VStr m); ("params", p)]
            :: frames).
    rewrite Hs, Hm. simpl. split; [by rewrite <- app_assoc|].
    split; [|split; [by rewrite Hlen|lia]].
    change (list_omap value Z sent_id frames) with (omap sent_id frames).
    rewrite Hids. simpl.
    rewrite (seqZ_cons (messageId s)) by lia. f_equal. f_equal; lia.
Qed.

(** X1. Whatever happens to a fresh session, the frames it has sent carry
    the ids 1, 2, ..., n in this order, where n is the number of
    [sendCommand] calls so far, and the counter stands at n + 1: ids go up
    by one per call and are never used twice. *)
Theorem sent_ids_are_consecutive es :
  let n := length (List.filter is_call es) in
  omap sent_id (sent (run es init)) = seqZ 1 (Z.of_nat n) /\
  length (sent (run es init)) = n /\
  messageId (run es init) = (1 + Z.of_nat n)%Z.
Proof.
  intros n. destruct (sent_ids_run es init) as (frames & Hs & Hids & Hlen & Hm).
  simpl in Hs. fold n in Hids, Hlen, Hm. by rewrite Hs.
Qed.

(** *** Handlers, timers and promises agree *)












(** *** Replies that carry an error, replies nobody waits for *)

Lemma run_call_reply s m p quiet clock data o rest :
  Forall (fun e => bystander (messageId s) e = true) quiet ->
  is_reply data = true -> verdict (messageId s) data = Some o ->
  promises (run (Call m p :: quiet ++ Message clock data :: rest) s)
    !! messageId s = Some o.
Proof.
  intros Hq Hr Hv. pose proof (run_call_quiet s m p quiet Hq) as Hout.
  rewrite (app_comm_cons quiet), run_app', run_cons'.
  rewrite (exec_reply (messageId s) m _ _ o) by done.
  destruct (settled_by_done (messageId s) m o _ Hout) as (Hp & _ & _ & Hid).
  apply run_settled; [done| by eapply verdict_not_pending |].
  by destruct Hout as (_ & _ & _ & ?).
Qed.

(** X3. The reply to an outstanding call decides it by its [error] field
    alone: an error object with a non-empty message rejects with that
    message; an error object without a message rejects with
    'CDP command failed', even when the reply also carries a result; and an
    error that is present but falsy ([null], [0], [false], the empty string)
    is not an error at all: the call is fulfilled with the result. *)
Theorem error_field_decides s m p quiet clock result rest :
  let id := messageId s in
  let reply err :=
    Message clock (Json (VObj [("id", VNum id); ("error", err);
                               ("result", result)])) in
  Forall (fun e => bystander id e = true) quiet ->
  (forall details msg,
     lookup_prop "message" details = Some (VStr msg) -> msg <> "" ->
     promises (run (Call m p :: quiet ++ reply (VObj details) :: rest) s) !! id =
     Some (Rejected (Error msg))) /\
  (forall details,
     lookup_prop "message" details = None ->
     promises (run (Call m p :: quiet ++ reply (VObj details) :: rest) s) !! id =
     Some (Rejected (Error "CDP command failed"))) /\
  (forall err,
     truthy err = false ->
     promises (run (Call m p :: quiet ++ reply err :: rest) s) !! id =
     Some (Fulfilled result)).
Proof.
  intros id reply Hq. split; [|split].
  - intros details msg Hmsg Hne. apply run_call_reply; [done..|].
    simpl. rewrite Z.eqb_refl, Hmsg. simpl.
    unfold js_or. simpl. by destruct (String.eqb_spec msg "").
  - intros details Hmsg. apply run_call_reply; [done..|].
    simpl. by rewrite Z.eqb_refl, Hmsg.
  - intros err Herr. apply run_call_reply; [done..|].
    simpl. by rewrite Z.eqb_refl, Herr.
Qed.



(** *** The collectors inside a session *)

Lemma off_cons_other j l ls :
  is_handler_of j l = false -> off j (l :: ls) = l :: off j ls.
Proof. intros Hl. unfold off. simpl. by rewrite Hl. Qed.

Lemma console_first_off j s s' :
  listeners s' = off j (listeners s) -> console_first s -> console_first s'.
Proof.
  intros Hls (rest & Hl & Hrest). exists (off j rest). split.
  - by rewrite Hls, Hl, off_cons_other.
  - intros [Hin _]%off_elem. done.
Qed.

Lemma console_first_same s s' :
  listeners s' = listeners s -> console_first s -> console_first s'.
Proof. intros Hls (rest & Hl & Hrest). exists rest. by rewrite Hls. Qed.

Lemma console_first_invoke l tk data s s' :
  console_first s -> invoke l tk data s = Normal s' -> console_first s'.
Proof.
  intros Hc Hrun%invoke_cases. destruct l as [j m| |c].
  - destruct Hrun as [->|(o & _ & ->)]; [done|].
    by apply (console_first_off j s).
  - destruct Hrun as (m & _ & ->). by apply (console_first_same s).
  - destruct Hrun as (n & _ & ->). by apply (console_first_same s).
Qed.

Lemma others_keep_console ls i clock data s :
  ConsoleListener ∉ ls ->
  consoleMessages (emit_from ls i clock data s).1 = consoleMessages s.
Proof.
  revert i s. induction ls as [|l ls IH]; intros i s Hls; simpl; [done|].
  apply not_elem_of_cons in Hls as [Hl Hls].
  destruct (invoke l (clock i) data s) as [s'|] eqn:E; [|done].
  rewrite IH by done. apply invoke_cases in E. destruct l as [j m| |c]; [|done|].
  - by destruct E as [->|(o & _ & ->)].
  - by destruct E as (n & _ & ->).
Qed.

Lemma console_first_emit clock data s :
  console_first s ->
  consoleMessages (emit clock data s).1 =
    Console.deliver (consoleMessages s) (clock 0%nat, data) /\
  console_first (emit clock data s).1.
Proof.
  intros Hc. split.
  - destruct Hc as (rest & Hl & Hrest). unfold emit. rewrite Hl. simpl.
    unfold Console.deliver. simpl.
    destruct (Console.onMessage (clock 0%nat) data (consoleMessages s)); [|done].
    cbn. by rewrite others_keep_console.
  - unfold emit. apply emit_from_preserves; [|done].
    intros l tk d s1 s2. apply console_first_invoke.
Qed.

Lemma console_first_run es s :
  console_first s -> SetupConsole ∉ es ->
  consoleMessages (run es s) =
  Console.run (console_frames es) (consoleMessages s).
Proof.
  revert s. induction es as [|e es IH]; intros s Hc Hes; [done|].
  apply not_elem_of_cons in Hes as [He Hes]. rewrite run_cons'.
  destruct e as [m p|clock data|j| | |]; try done.
  - rewrite IH; [done| |done]. destruct Hc as (rest & Hl & Hrest).
    exists (rest ++ [CommandListener (messageId s) m]). simpl. rewrite Hl.
    split; [done|]. intros [?|?%list_elem_of_singleton]%elem_of_app; done.
  - destruct (console_first_emit clock data s Hc) as [Hm Hc'].
    change (console_frames (Message clock data :: es))
      with ((clock 0%nat, data) :: console_frames es).
    change (Console.run ((clock 0%nat, data) :: console_frames es) (consoleMessages s))
      with (Console.run (console_frames es)
              (Console.deliver (consoleMessages s) (clock 0%nat, data))).
    rewrite <- Hm. by apply IH.
  - rewrite IH; [|simpl; unfold timeout; destruct (timers s !! j);
                   [by apply (console_first_off j s)|done] |done].
    simpl. unfold timeout. by destruct (timers s !! j).
  - rewrite IH; [done| |done]. by apply (console_first_same s).
  - rewrite IH; [done| |done]. destruct Hc as (rest & Hl & Hrest).
    exists (rest ++ [NetworkListener (length (closures s))]). simpl. rewrite Hl.
    split; [done|]. intros [?|?%list_elem_of_singleton]%elem_of_app; done.
Qed.

(** X5. In a session that registers the console listener first, as
    [listConsole] does, [this.consoleMessages] is at every moment what the
    console aggregator makes of the frames received so far, in arrival
    order: no call, reply, timer, close or network listener, and no
    exception thrown by any listener, adds, drops or reorders an entry. *)
Theorem session_console_is_the_aggregator es :
  SetupConsole ∉ es ->
  consoleMessages (run (SetupConsole :: es) init) =
  Console.run (console_frames es) JsMap.empty.
Proof.
  intros Hes. rewrite run_cons'. rewrite console_first_run; [done| |done].
  exists []. split; [done|]. by intros ?%elem_of_nil.
Qed.

Lemma network_first_listeners s s' :
  (listeners s' = listeners s \/ exists j, listeners s' = off j (listeners s)) ->
  length (closures s') = length (closures s) ->
  network_first s -> network_first s'.
Proof.
  intros Hls Hcl [(rest & Hl & Hrest) Hlen]. split; [|congruence].
  destruct Hls as [Hls|[j Hls]].
  - exists rest. by rewrite Hls.
  - exists (off j rest). split; [by rewrite Hls, Hl, off_cons_other|].
    intros c [Hin _]%off_elem. by apply (Hrest c).
Qed.

Lemma network_first_invoke l tk data s s' :
  network_first s -> invoke l tk data s = Normal s' -> network_first s'.
Proof.
  intros Hc Hrun%invoke_cases. destruct l as [j m| |c].
  - destruct Hrun as [->|(o & _ & ->)]; [done|].
    apply (network_first_listeners s); [right; by exists j|done|done].
  - destruct Hrun as (m & _ & ->).
    apply (network_first_listeners s); [by left|done|done].
  - destruct Hrun as (n & _ & ->).
    apply (network_first_listeners s); [by left| |done].
    simpl. apply length_insert.
Qed.

Lemma others_keep_network ls i clock data s :
  (forall c, NetworkListener c ∉ ls) ->
  network_view (emit_from ls i clock data s).1 = network_view s.
Proof.
  revert i s. induction ls as [|l ls IH]; intros i s Hls; simpl; [done|].
  assert (forall c, NetworkListener c ∉ ls) as Hls'.
  { intros c Hin. apply (Hls c). by right. }
  destruct (invoke l (clock i) data s) as [s'|] eqn:E; [|done].
  rewrite IH by done. apply invoke_cases in E. destruct l as [j m| |c].
  - by destruct E as [->|(o & _ & ->)].
  - by destruct E as (m & _ & ->).
  - exfalso. apply (Hls c). left.
Qed.

Lemma net_state_eta (n : Net.state) :
  Net.mkState (Net.heap n) (Net.requests n) (Net.networkRequests n) = n.
Proof. by destruct n. Qed.

Lemma network_first_emit clock data s :
  network_first s ->
  network_view (emit clock data s).1 =
    Net.deliver (network_view s) (now (clock 0%nat), data) /\
  network_first (emit clock data s).1.
Proof.
  intros Hc. split.
  - destruct Hc as [(rest & Hl & Hrest) Hlen]. unfold emit. rewrite Hl. simpl.
    unfold Net.deliver. simpl. fold (network_view s).
    destruct (Net.onMessage (now (clock 0%nat)) data (network_view s)) as [n|];
      [|done].
    cbn. rewrite others_keep_network by done. unfold network_view. simpl.
    rewrite list_lookup_insert_eq by lia. simpl. apply net_state_eta.
  - unfold emit. apply emit_from_preserves; [|done].
    intros l tk d s1 s2. apply network_first_invoke.
Qed.

Lemma network_first_run es s :
  network_first s -> SetupNetwork ∉ es ->
  network_view (run es s) = Net.run (network_frames es) (network_view s).
Proof.
  revert s. induction es as [|e es IH]; intros s Hc Hes; [done|].
  apply not_elem_of_cons in Hes as [He Hes]. rewrite run_cons'.
  destruct e as [m p|clock data|j| | |]; try done.
  - rewrite IH; [done| |done]. destruct Hc as [(rest & Hl & Hrest) Hlen].
    split; [|done]. exists (rest ++ [CommandListener (messageId s) m]).
    simpl. rewrite Hl. split; [done|].
    intros c [?|?%list_elem_of_singleton]%elem_of_app; [by apply (Hrest c)|done].
  - destruct (network_first_emit clock data s Hc) as [Hm Hc'].
    change (network_frames (Message clock data :: es))
      with ((now (clock 0%nat), data) :: network_frames es).
    change (Net.run ((now (clock 0%nat), data) :: network_frames es) (network_view s))
      with (Net.run (network_frames es)
              (Net.deliver (network_view s) (now (clock 0%nat), data))).
    rewrite <- Hm. by apply IH.
  - rewrite IH; [|simpl; unfold timeout; destruct (timers s !! j);
                   [apply (network_first_listeners s);
                      [right; by exists j|done|done] |done] |done].
    simpl. unfold timeout. by destruct (timers s !! j).
  - rewrite IH; [done| |done].
    apply (network_first_listeners s); [by left|done|done].
  - rewrite IH; [done| |done]. destruct Hc as [(rest & Hl & Hrest) Hlen].
    split; [|done]. exists (rest ++ [ConsoleListener]).
    simpl. rewrite Hl. split; [done|].
    intros c [?|?%list_elem_of_singleton]%elem_of_app; [by apply (Hrest c)|done].
Qed.

(** X6. In a session that registers the network listener first, as
    [listNetwork] does, the request objects, the local [requests] map and
    [this.networkRequests] are at every moment what the network aggregator
    makes of the frames received so far: calls, replies, timers, the close
    of the socket, a console listener and exceptions thrown by listeners
    leave them alone. *)
Theorem session_network_is_the_aggregator es :
  SetupNetwork ∉ es ->
  network_view (run (SetupNetwork :: es) init) =
  Net.run (network_frames es) Net.init.
Proof.
  intros Hes. rewrite run_cons'. rewrite network_first_run; [done| |done].
  split; [|done]. exists []. split; [done|]. by intros c ?%elem_of_nil.
Qed.
End SessionMore.

(** ** The aggregators beyond the claims *)

Section NetMore.
Context `{JSRuntime}.
Import NetworkRequest Net NetView.

Lemma JsMap_set_Forall_key {V} (P : value * V -> Prop) (m : JsMap.t V) k v :
  P (k, v) -> Forall P m -> Forall P (JsMap.set k v m).
Proof.
  intros Hv. induction 1 as [|[k' v'] m Hx Hm IH]; simpl.
  - by repeat constructor.
  - destruct (sameValueZero k' k) eqn:E; constructor; auto.
    apply sameValueZero_eq in E. by subst.
Qed.

(** Case analysis on the property reads in front of a handler's body. *)
Ltac props H :=
  repeat match type of H with
  | context [mbind _ (get ?a ?b)] =>
      destruct (get a b) eqn:?; cbn -[js_times] in H; try discriminate H
  end.

Lemma tied_init : tied init.
Proof. split; constructor. Qed.

Lemma tied_assign l f s :
  (forall o, id (f o) = id o) -> tied s -> tied (assign l f s).
Proof.
  intros Hf [Hr Hn].
  assert (forall kl : value * nat,
            (exists o, heap s !! kl.2 = Some o /\ id o = kl.1) ->
            exists o, alter f l (heap s) !! kl.2 = Some o /\ id o = kl.1) as Hstep.
  { intros [k l'] (o & Ho & Hid). simpl in *.
    destruct (decide (l = l')) as [->|Hne].
    - exists (f o). rewrite list_lookup_alter_eq, Ho. by rewrite Hf.
    - exists o. by rewrite list_lookup_alter_ne. }
  split; simpl; (eapply Forall_impl; [|exact Hstep]); done.
Qed.

Lemma tied_grow s obj :
  tied s ->
  Forall (fun kl : value * nat =>
            exists o, (heap s ++ [obj]) !! kl.2 = Some o /\ id o = kl.1)
         (requests s) /\
  Forall (fun kl : value * nat =>
            exists o, (heap s ++ [obj]) !! kl.2 = Some o /\ id o = kl.1)
         (networkRequests s).
Proof.
  intros [Hr Hn].
  assert (forall kl : value * nat,
            (exists o, heap s !! kl.2 = Some o /\ id o = kl.1) ->
            exists o, (heap s ++ [obj]) !! kl.2 = Some o /\ id o = kl.1) as Hstep.
  { intros [k l'] (o & Ho & Hid). exists o. split; [|done].
    by apply lookup_app_l_Some. }
  split; (eapply Forall_impl; [|exact Hstep]); done.
Qed.

Lemma tied_alloc s k obj :
  id obj = k -> tied s ->
  tied (mkState (heap s ++ [obj]) (JsMap.set k (length (heap s)) (requests s))
                (networkRequests s)).
Proof.
  intros Hobj Ht. destruct (tied_grow s obj Ht) as [Hr Hn]. split; simpl; [|done].
  apply JsMap_set_Forall_key; [|done]. exists obj. simpl.
  split; [|done]. by rewrite lookup_app_r, Nat.sub_diag.
Qed.

Lemma tied_publish s k l :
  (exists o, heap s !! l = Some o /\ id o = k) -> tied s ->
  tied (mkState (heap s) (requests s) (JsMap.set k l (networkRequests s))).
Proof.
  intros Hl [Hr Hn]. split; simpl; [done|]. by apply JsMap_set_Forall_key.
Qed.

Lemma tied_lookup s k l :
  tied s -> JsMap.get k (requests s) = Some l ->
  exists o, heap s !! l = Some o /\ id o = k.
Proof.
  intros [Hr _] Hk%JsMap_get_Some_elem.
  rewrite Forall_forall in Hr. exact (Hr _ Hk).
Qed.

Lemma assign_lookup l f s o k :
  (forall o, id (f o) = id o) ->
  heap s !! l = Some o /\ id o = k ->
  exists o', heap (assign l f s) !! l = Some o' /\ id o' = k.
Proof.
  intros Hf [Ho Hid]. exists (f o). simpl.
  rewrite list_lookup_alter_eq, Ho. by rewrite Hf.
Qed.

Lemma requestWillBeSent_tied message s s' :
  requestWillBeSent message s = Normal s' -> tied s -> tied s'.
Proof.
  unfold requestWillBeSent. intros Hrun Ht. props Hrun.
  all: destruct (JsMap.get _ (requests s)) as [l|] eqn:Hk;
    try discriminate Hrun; injection Hrun as <-.
  - repeat apply tied_assign; auto; by intros [].
  - by apply tied_alloc.
Qed.

Lemma responseReceived_tied now message s s' :
  responseReceived now message s = Normal s' -> tied s -> tied s'.
Proof.
  unfold responseReceived. intros Hrun Ht. props Hrun.
  all: destruct (JsMap.get _ (requests s)) as [l|] eqn:Hk; props Hrun;
    try discriminate Hrun; injection Hrun as <-.
  all: try (destruct (tied_lookup s _ l Ht Hk) as (o & Ho & Hid)).
  all: destruct (is_defined _);
    (apply tied_publish;
     [ simpl; rewrite ?list_lookup_alter_eq, ?Ho,
         ?(lookup_app_r (heap s)), ?Nat.sub_diag by done; simpl; eexists;
       (split; [reflexivity|]); simpl; try done; by destruct o
     | repeat (apply tied_assign; [by intros []|]);
       first [done | by apply tied_alloc] ]).
Qed.

Lemma loadingFinished_tied message s s' :
  loadingFinished message s = Normal s' -> tied s -> tied s'.
Proof.
  unfold loadingFinished. intros Hrun Ht. props Hrun.
  destruct (JsMap.get _ (networkRequests s)); injection Hrun as <-; auto.
  apply tied_assign; auto; by intros [].
Qed.

Lemma onMessage_tied now data s s' :
  onMessage now data s = Normal s' -> tied s -> tied s'.
Proof.
  unfold onMessage. intros Hrun Ht.
  destruct (JSON_parse data) as [message|]; [cbn in Hrun|discriminate].
  props Hrun.
  destruct (strict_eq_str _ "Network.requestWillBeSent");
    [destruct (requestWillBeSent message s) as [s1|] eqn:E1; [|discriminate];
     apply requestWillBeSent_tied in E1; [|done] |];
  cbn in Hrun.
  all: destruct (strict_eq_str _ "Network.responseReceived");
    [match type of Hrun with context [responseReceived ?n ?m ?x] =>
       destruct (responseReceived n m x) as [s2|] eqn:E2; [|discriminate];
       apply responseReceived_tied in E2; [|done] end |];
    cbn in Hrun.
  all: destruct (strict_eq_str _ "Network.loadingFinished");
    [eapply loadingFinished_tied; eauto | by injection Hrun as <-].
Qed.

Lemma run_tied ds s : tied s -> tied (run ds s).
Proof.
  revert s. induction ds as [|d ds IH]; intros s Ht; [done|].
  rewrite run_cons. apply IH. unfold deliver.
  destruct (onMessage d.1 d.2 s) eqn:E; eauto using onMessage_tied.
Qed.

Lemma tied_ids s :
  tied s -> id <$> getNetworkRequests s = JsMap.keys (networkRequests s).
Proof.
  intros [_ Hn]. unfold getNetworkRequests, JsMap.values, JsMap.keys.
  generalize dependent (networkRequests s). generalize (heap s). intros h m.
  induction 1 as [|[k l] m (o & Ho & Hid) Hm IH]; [done|].
  cbn in *. rewrite Ho. cbn. by rewrite Hid, IH.
Qed.

(** X9. Whatever frames arrive, retrieval returns exactly one object per
    entry of [this.networkRequests], in the order of the table, and each
    object carries the key of its entry as its [id]: no entry dangles, and
    no notification ever changes the [id] of an entity. *)
Theorem retrieved_ids_are_the_keys ds :
  id <$> getNetworkRequests (run ds init) =
  JsMap.keys (networkRequests (run ds init)).
Proof.
  apply tied_ids, run_tied, tied_init.
Qed.

(** X10. As long as no response notification for a key has been delivered,
    a finish notification for that key is dropped: it changes nothing, the
    size it carries is lost, even when the request is already known through
    its start notification. *)
Theorem finish_before_response_is_dropped ds k sz n :
  Forall (fun d => is_response_for k d.2 = false) ds ->
  run (ds ++ [(n, frame (Finish k sz))]) init = run ds init.
Proof.
  intros Hds. rewrite run_app. rewrite run_cons, run_nil, deliver_frame.
  rewrite onMessage_Finish.
  assert (JsMap.get (VStr k) (networkRequests (run ds init)) = None) as ->; [|done].
  assert (JsMap.get (VStr k) (networkRequests init) = None) as Hinit by done.
  revert Hinit. generalize init.
  induction Hds as [|d ds Hd Hds IH]; intros s Hs; [done|].
  rewrite run_cons. by apply IH, deliver_unpublished_persists.
Qed.

Lemma JsMap_get_keys {V} (m : JsMap.t V) k :
  sameValueZero k k = true -> (is_Some (JsMap.get k m) <-> k ∈ JsMap.keys m).
Proof.
  intros Hk. split.
  - intros [v Hv%JsMap_get_Some_elem]. unfold JsMap.keys.
    apply list_elem_of_fmap. by exists (k, v).
  - intros Hin. destruct (JsMap.get k m) eqn:E; [by eexists|].
    by destruct (JsMap_get_None_absent m k Hk E).
Qed.

Lemma run_response_keys evs s seen :
  (forall k, k ∈ seen <-> VStr k ∈ JsMap.keys (networkRequests s)) ->
  JsMap.keys (networkRequests (run ((fun d => (d.1, frame d.2)) <$> evs) s)) =
  JsMap.keys (networkRequests s) ++ (VStr <$> first_seen seen (response_keys evs)).
Proof.
  revert s seen. induction evs as [|[n e] evs IH]; intros s seen Hseen.
  { simpl. by rewrite app_nil_r. }
  rewrite fmap_cons, run_cons. cbn [fst snd]. rewrite deliver_frame.
  destruct e as [k request ts ty|k response|k sz].
  - rewrite onMessage_Start.
    change (response_keys ((n, Start k request ts ty) :: evs))
      with (response_keys evs).
    destruct (JsMap.get (VStr k) (requests s)); by rewrite (IH _ seen).
  - rewrite onMessage_Response.
    change (response_keys ((n, Response k response) :: evs))
      with (k :: response_keys evs).
    set (s' := mkState _ _ _).
    assert (networkRequests s' =
            JsMap.set (VStr k) (match JsMap.get (VStr k) (requests s) with
                                | Some l => l | None => length (heap s) end)
                      (networkRequests s)) as Hs'.
    { unfold s'. destruct (JsMap.get (VStr k) (requests s)),
        (is_defined (field "encodedDataLength" response)); reflexivity. }
    pose proof (JsMap_get_keys (networkRequests s) (VStr k)
                  (sameValueZero_str_refl k)) as Hk.
    cbn [first_seen]. destruct (bool_decide_reflect (k ∈ seen)) as [Hin|Hout].
    + apply Hseen, Hk in Hin as [l0 Hl0].
      assert (JsMap.keys (networkRequests s') = JsMap.keys (networkRequests s))
        as Hkeys by (rewrite Hs'; by eapply JsMap_set_present_keys).
      rewrite (IH _ seen); [by rewrite Hkeys|].
      intros k'. by rewrite Hkeys.
    + assert (JsMap.get (VStr k) (networkRequests s) = None) as Hnone.
      { destruct (JsMap.get (VStr k) (networkRequests s)) eqn:E; [|done].
        destruct Hout. apply Hseen, Hk. by eexists. }
      assert (JsMap.keys (networkRequests s') =
              JsMap.keys (networkRequests s) ++ [VStr k]) as Hkeys.
      { rewrite Hs', JsMap_set_absent by done. unfold JsMap.keys.
        by rewrite fmap_app. }
      rewrite (IH _ (k :: seen)).
      * rewrite Hkeys, fmap_cons. by rewrite <- app_assoc.
      * intros k'. rewrite Hkeys, elem_of_cons, elem_of_app, Hseen.
        rewrite list_elem_of_singleton.
        split; (intros [Ha|Hb]; [right|left]); congruence.
  - rewrite onMessage_Finish.
    change (response_keys ((n, Finish k sz) :: evs)) with (response_keys evs).
    destruct (JsMap.get (VStr k) (networkRequests s)); by rewrite (IH _ seen).
Qed.

(** X11. For well-formed notifications, retrieval lists one entity per key
    that had a response notification, in the order in which the keys had
    their first response: start and finish notifications, and the order in
    which the requests were started, have no influence on the listing. *)
Theorem retrieval_order_is_first_response evs :
  id <$> getNetworkRequests (run ((fun d => (d.1, frame d.2)) <$> evs) init) =
  VStr <$> first_seen [] (response_keys evs).
Proof.
  rewrite tied_ids by apply run_tied, tied_init.
  rewrite (run_response_keys evs init []); [done|].
  intros k. split; [by intros ?%elem_of_nil|].
  simpl. by intros ?%elem_of_nil.
Qed.
End NetMore.

(** *** Concrete runs *)

(** X3: the call 1 is answered with an error object that has no message,
    although the reply carries a result; with a message 'boom'; and with
    the error [null]. *)
Lemma error_field_decides_witness :
  let run_with err :=
    Session.run
      [Session.Call "Runtime.evaluate" VUndef;
       Session.Message (fun _ => mkTick 0 "" 0)
         (Json (VObj [("id", VNum 1); ("error", err); ("result", VNum 7)]))]
      Session.init in
  Forall (fun e => Session.bystander 1 e = true) [] /\
  Session.promises (run_with (VObj [("message", VStr "boom")])) !! 1 =
    Some (Session.Rejected (Error "boom")) /\
  Session.promises (run_with (VObj [("code", VNum (-32000))])) !! 1 =
    Some (Session.Rejected (Error "CDP command failed")) /\
  Session.promises (run_with VNull) !! 1 = Some (Session.Fulfilled (VNum 7)).
Proof.
  intros run_with. split; [constructor|].
  destruct (error_field_decides Session.init "Runtime.evaluate" VUndef []
              (fun _ => mkTick 0 "" 0) (VNum 7) [] (List.Forall_nil _))
    as (Hmsg & Hnone & Hfalsy).
  split; [|split].
  - apply (Hmsg [("message", VStr "boom")] "boom" eq_refl). discriminate.
  - exact (Hnone [("code", VNum (-32000))] eq_refl).
  - exact (Hfalsy VNull eq_refl).
Defined.


(** X5: a call, a console notification, a malformed frame and the reply. *)
Lemma session_console_is_the_aggregator_witness :
  let es :=
    [Session.Call "Runtime.enable" VUndef;
     Session.Message (fun _ => mkTick 7 "k3x9q0a1z" 7)
       (Json (VObj [("method", VStr "Runtime.consoleAPICalled");
                    ("params", VObj [("type", VStr "log");
                                     ("args", VArr [VObj [("value", VStr "hi")]])])]));
     Session.Message (fun _ => mkTick 8 "" 8) (Garbled "{");
     Session.Message (fun _ => mkTick 9 "" 9) (Session.result_frame 1 (VObj []))] in
  (Session.SetupConsole ∉ es) /\
  Session.consoleMessages (Session.run (Session.SetupConsole :: es) Session.init) =
  Console.run (SessionView.console_frames es) JsMap.empty.
Proof.
  intros es.
  assert (Session.SetupConsole ∉ es) as Hes.
  { unfold es. rewrite !not_elem_of_cons. repeat split; try discriminate.
    apply not_elem_of_nil. }
  split; [exact Hes|].
  exact (session_console_is_the_aggregator es Hes).
Defined.

(** X6: a call, the start and the response of request "r1", and the reply. *)
Lemma session_network_is_the_aggregator_witness :
  let es :=
    [Session.Call "Network.enable" VUndef;
     Session.Message (fun _ => mkTick 0 "" 5)
       (Net.frame (Net.Start "r1" [("url", VStr "https://x")] (VNum 7) VUndef));
     Session.Message (fun _ => mkTick 0 "" 6)
       (Net.frame (Net.Response "r1" [("status", VNum 200)]));
     Session.Message (fun _ => mkTick 0 "" 9) (Session.result_frame 1 (VObj []))] in
  (Session.SetupNetwork ∉ es) /\
  SessionView.network_view
    (Session.run (Session.SetupNetwork :: es) Session.init) =
  Net.run (SessionView.network_frames es) Net.init.
Proof.
  intros es.
  assert (Session.SetupNetwork ∉ es) as Hes.
  { unfold es. rewrite !not_elem_of_cons. repeat split; try discriminate.
    apply not_elem_of_nil. }
  split; [exact Hes|].
  exact (session_network_is_the_aggregator es Hes).
Defined.

(** X10: "r1" is known through its start notification only. *)
Lemma finish_before_response_is_dropped_witness :
  let ds := [(0, Net.frame (Net.Start "r1" [("url", VStr "https://x")] (VNum 7) VUndef));
             (1, Garbled "{")] in
  Forall (fun d : Z * Buffer => Net.is_response_for "r1" d.2 = false) ds /\
  Net.run (ds ++ [(2, Net.frame (Net.Finish "r1" (VNum 500)))]) Net.init =
  Net.run ds Net.init.
Proof.
  intros ds.
  assert (Forall (fun d : Z * Buffer => Net.is_response_for "r1" d.2 = false) ds)
    as Hds by (repeat constructor).
  split; [exact Hds|].
  exact (finish_before_response_is_dropped ds "r1" (VNum 500) 2 Hds).
Defined.

(** ** The console aggregator beyond the claims *)

Section ConsoleMore.
Context `{JSRuntime}.
Import ConsoleMessage Console ConsoleView.

Lemma console_run_snoc ds d m : run (ds ++ [d]) m = deliver (run ds m) d.
Proof. unfold run. by rewrite foldl_app. Qed.

Lemma entries_snoc ds tk data :
  entries (ds ++ [(tk, data)]) =
  entries ds ++ match entry_of tk data with Some e => [e] | None => [] end.
Proof. unfold entries. rewrite omap_app. simpl. by destruct (entry_of tk data). Qed.

Lemma run_latest ds k m :
  JsMap.get (VStr k) (run ds m) =
  match last (with_id k (entries ds)) with
  | Some e => Some e
  | None => JsMap.get (VStr k) m
  end.
Proof.
  induction ds as [|[tk data] ds IH] using rev_ind; [done|].
  rewrite console_run_snoc, entries_snoc, deliver_entry.
  unfold with_id in *. rewrite List.filter_app.
  destruct (entry_of tk data) as [e|]; simpl; [|by rewrite app_nil_r].
  unfold store. destruct (String.eqb_spec (id e) k) as [->|Hne].
  - rewrite last_snoc. apply JsMap_get_set_eq, sameValueZero_str_refl.
  - rewrite app_nil_r, JsMap_get_set_ne; [done|].
    simpl. by apply String.eqb_neq.
Qed.

Lemma run_keys_NoDup ds m :
  NoDup (JsMap.keys m) -> NoDup (JsMap.keys (run ds m)).
Proof.
  induction ds as [|[tk data] ds IH] using rev_ind; [done|].
  intros Hm. rewrite console_run_snoc, deliver_entry.
  destruct (entry_of tk data);
    [unfold store; apply JsMap_set_NoDup|]; auto using sameValueZero_str_refl.
Qed.

Lemma run_stored_id ds m :
  Forall (fun kv => kv.1 = VStr (id kv.2)) m ->
  Forall (fun kv => kv.1 = VStr (id kv.2)) (run ds m).
Proof.
  induction ds as [|[tk data] ds IH] using rev_ind; [done|].
  intros Hm. rewrite console_run_snoc, deliver_entry.
  destruct (entry_of tk data); [unfold store; apply JsMap_set_Forall_key|]; auto.
Qed.

(** X7. Whatever ids the host draws, the console store holds under each id
    the latest entry that was given this id, and nothing when no entry was:
    an entry whose id repeats an earlier one replaces that entry instead of
    being added. Retrieval never shows two messages with one id, and each
    message is filed under its own id. *)
Theorem latest_entry_wins ds :
  (forall k, JsMap.get (VStr k) (run ds JsMap.empty) = last (with_id k (entries ds))) /\
  NoDup (id <$> getConsoleMessages (run ds JsMap.empty)) /\
  (length (getConsoleMessages (run ds JsMap.empty)) <= length (entries ds))%nat.
Proof.
  split; [|split].
  - intros k. rewrite run_latest. by destruct (last _).
  - pose proof (run_keys_NoDup ds JsMap.empty (NoDup_nil_2)) as Hnd.
    pose proof (run_stored_id ds JsMap.empty (Forall_nil_2 _)) as Hid.
    unfold getConsoleMessages, JsMap.values, JsMap.keys in *.
    apply (NoDup_fmap_1 VStr).
    assert (VStr <$> (id <$> (run ds JsMap.empty).*2) = (run ds JsMap.empty).*1)
      as ->; [|exact Hnd].
    clear Hnd. induction Hid as [|[k e] m Hk Hm IH]; [done|].
    rewrite !fmap_cons. simpl in Hk. rewrite IH. simpl. by rewrite Hk.
  - unfold getConsoleMessages, JsMap.values. rewrite length_fmap.
    induction ds as [|[tk data] ds IH] using rev_ind; [done|].
    rewrite console_run_snoc, entries_snoc, deliver_entry, length_app.
    destruct (entry_of tk data) as [e|]; simpl; [|lia].
    unfold store. destruct (JsMap.get (VStr (id e)) (run ds JsMap.empty)) eqn:E.
    + assert (length (JsMap.set (VStr (id e)) e (run ds JsMap.empty)) =
              length (run ds JsMap.empty)) as ->; [|lia].
      pose proof (JsMap_set_present_keys _ _ e _ E) as Hk.
      apply (f_equal length) in Hk. unfold JsMap.keys in Hk.
      by rewrite !length_fmap in Hk.
    + rewrite JsMap_set_absent by done. rewrite length_app. simpl. lia.
Qed.

Lemma entry_of_shape tk data e :
  entry_of tk data = Some e -> from_console_call e \/ from_exception e.
Proof.
  unfold entry_of. destruct data as [|[| | | | | | |props]]; try discriminate.
  destruct (strict_eq_str _ "Runtime.consoleAPICalled").
  - unfold consoleAPICalled. intros He. left.
    repeat match type of He with
    | context [mbind _ (get ?a ?b)] =>
        destruct (get a b) eqn:?; cbn -[map_args join_space] in He;
        try discriminate He
    end.
    match type of He with context [mbind _ ?c] => destruct c eqn:Hargs end;
      cbn -[map_args join_space] in He; [|discriminate].
    injection He as <-. unfold from_console_call. simpl.
    match type of Hargs with
    | match ?a with _ => _ end = _ => destruct a; try discriminate Hargs
    end.
    eauto 10.
  - destruct (strict_eq_str _ "Runtime.exceptionThrown"); [|discriminate].
    unfold exceptionThrown. intros He. right.
    repeat match type of He with
    | context [mbind _ (get ?a ?b)] =>
        destruct (get a b) eqn:?; cbn in He; try discriminate He
    end.
    injection He as <-. by unfold from_exception.
Qed.

Lemma run_stored_entries ds :
  Forall (fun kv => kv.2 ∈ entries ds) (run ds JsMap.empty).
Proof.
  induction ds as [|[tk data] ds IH] using rev_ind; [constructor|].
  rewrite console_run_snoc, entries_snoc, deliver_entry.
  assert (Forall (fun kv : value * ConsoleMessage.t =>
                    kv.2 ∈ entries ds ++
                           match entry_of tk data with
                           | Some e => [e] | None => [] end)
                 (run ds JsMap.empty)) as Hold.
  { eapply Forall_impl; [exact IH|]. intros kv Hkv. apply elem_of_app. by left. }
  destruct (entry_of tk data) as [e|]; [|done].
  unfold store. apply JsMap_set_Forall_key; [|done].
  simpl. apply elem_of_app. right. by apply list_elem_of_singleton.
Qed.

(** X8. Every message retrieval returns is the entry built from one of the
    frames received, and has one of two shapes. Built from a console call:
    source 'console-api', a string as text, the array of the call as args,
    and no line and no url. Built from an uncaught exception: source
    'exception', type 'error', and no args. *)
Theorem retrieved_messages_are_entries ds :
  Forall (fun e => (exists d, d ∈ ds /\ entry_of d.1 d.2 = Some e) /\
                   (from_console_call e \/ from_exception e))
         (getConsoleMessages (run ds JsMap.empty)).
Proof.
  unfold getConsoleMessages, JsMap.values. apply Forall_fmap.
  eapply Forall_impl; [apply run_stored_entries|].
  intros [k e] He. simpl in *. unfold entries in He.
  apply list_elem_of_omap in He as ([tk data] & Hd & He).
  split; [by exists (tk, data)|]. by eapply entry_of_shape.
Qed.
End ConsoleMore.

(** ** The listing commands *)

Section ListingMore.
Context `{JSRuntime}.
Import ListConsole.

Lemma slice_from_negative {A} (n : Z) (xs : list A) :
  (0 < n)%Z ->
  slice_from (- n) xs = drop (length xs - Z.to_nat n) xs.
Proof.
  intros Hn. unfold slice_from. cbv zeta.
  destruct (Z.ltb_spec (- n) 0) as [_|?]; [|lia]. f_equal. lia.
Qed.

Lemma slice_from_positive {A} (n : Z) (xs : list A) :
  (0 <= n)%Z -> slice_from n xs = drop (Z.to_nat n) xs.
Proof.
  intros Hn. unfold slice_from. cbv zeta.
  destruct (Z.ltb_spec n 0) as [?|_]; [lia|].
  destruct (Z.le_gt_cases n (Z.of_nat (length xs))) as [Hle|Hgt].
  - by rewrite Z.min_l.
  - rewrite Z.min_r, Nat2Z.id by lia. by rewrite !drop_ge by lia.
Qed.

(** X12. For a tail limit of at least 1, [listConsole] keeps the last
    [tail] messages, all of them if there are no more than [tail], in their
    order; it warns exactly when it drops something, and the warning counts
    the messages dropped and suggests the total, capped at 50. *)
Theorem tail_keeps_the_latest {A} (tail : Z) (messages : list A) :
  (1 <= tail)%Z ->
  let total := Z.of_nat (length messages) in
  (applyTail tail messages).1 =
    drop (length messages - Z.to_nat tail) messages /\
  length (applyTail tail messages).1 = Nat.min (length messages) (Z.to_nat tail) /\
  (applyTail tail messages).2 =
    if (tail <? total)%Z
    then Some (mkWarning (total - tail) (Z.min total 50))
    else None.
Proof.
  intros Htail total. unfold applyTail. fold total.
  destruct (Z.eqb_spec tail (-1)) as [?|_]; [lia|]. simpl.
  destruct (Z.ltb_spec tail total) as [Hlt|Hge]; simpl.
  - rewrite slice_from_negative by lia. rewrite length_drop.
    split; [done|]. split; [lia|]. f_equal. f_equal. subst total. lia.
  - split; [|split; [lia|done]].
    replace (length messages - Z.to_nat tail)%nat with 0%nat by lia. done.
Qed.

(** X13. The tail limits below 1. [-1] switches the limit off. [0] keeps
    every message, and still warns, of 0 messages skipped, unless there is
    no message at all. A limit of [-2] or less does not count from the end:
    it drops that many of the oldest messages and keeps the rest. *)
Theorem tail_below_one {A} (messages : list A) :
  let total := Z.of_nat (length messages) in
  applyTail (-1) messages = (messages, None) /\
  applyTail 0 messages =
    (messages,
     if (0 <? total)%Z then Some (mkWarning 0 (Z.min total 50)) else None) /\
  (forall tail, (tail <= -2)%Z ->
     applyTail tail messages =
       (drop (Z.to_nat (- tail)) messages,
        Some (mkWarning (Z.min total (- tail)) (Z.min total 50)))).
Proof.
  intros total. split; [done|]. split.
  - unfold applyTail. fold total. simpl negb. cbn [andb].
    destruct (Z.ltb_spec 0 total); [|done].
    change (- 0)%Z with 0%Z. rewrite slice_from_positive by lia.
    change (Z.to_nat 0) with 0%nat. rewrite drop_0.
    f_equal. f_equal. f_equal. subst total. lia.
  - intros tail Htail. unfold applyTail. fold total.
    destruct (Z.eqb_spec tail (-1)) as [?|_]; [lia|].
    destruct (Z.ltb_spec tail total) as [_|?]; [|lia]. simpl.
    rewrite slice_from_positive by lia. rewrite length_drop.
    f_equal. f_equal. f_equal. subst total. lia.
Qed.

Lemma tail_below_one_witness :
  applyTail (-3) [1; 2; 3; 4; 5]%Z = ([4; 5]%Z, Some (mkWarning 3 5)).
Proof.
  exact (proj2 (proj2 (tail_below_one [1; 2; 3; 4; 5]%Z)) (-3)%Z ltac:(lia)).
Defined.

Lemma tail_keeps_the_latest_witness :
  (1 <= 2)%Z /\
  (applyTail 2 ["a"; "b"; "c"]).1 = ["b"; "c"] /\
  (applyTail 2 ["a"; "b"; "c"]).2 = Some (mkWarning 1 3).
Proof.
  split; [lia|].
  destruct (tail_keeps_the_latest 2 ["a"; "b"; "c"] ltac:(lia)) as (Hk & _ & Hw).
  split; [exact Hk | exact Hw].
Defined.

(** X14. With [--with-source] as the only flag, [listConsole] prints a
    location for messages built from uncaught exceptions only: whatever the
    frames were, a message that retrieval returns and that was built from a
    console call is printed as an object with its text and nothing else. *)
Theorem source_flag_shows_exceptions_only ds :
  Forall (fun e => object_of false false true e = [("text", ConsoleMessage.text e)] \/
                   ConsoleView.from_exception e)
         (Console.getConsoleMessages (Console.run ds JsMap.empty)).
Proof.
  unfold Console.getConsoleMessages, JsMap.values. apply Forall_fmap.
  eapply Forall_impl; [apply run_stored_entries|].
  intros [k e] He. simpl in *. unfold Console.entries in He.
  apply list_elem_of_omap in He as ([tk data] & _ & He).
  destruct (entry_of_shape _ _ _ He) as [(_ & _ & _ & Hline & Hurl)|Hexn];
    [left|by right].
  unfold object_of. by rewrite Hline, Hurl.
Qed.

Lemma lookup_prop_app name (a b : list (string * value)) :
  lookup_prop name (a ++ b) =
  match lookup_prop name a with Some v => Some v | None => lookup_prop name b end.
Proof.
  induction a as [|[k v] a IH]; [done|]. cbn [app lookup_prop].
  by destruct (String.eqb k name).
Qed.

Lemma lookup_spread_if_other name key v :
  key <> name -> lookup_prop name (ListNetwork.spread_if key v) = None.
Proof.
  intros Hne%String.eqb_neq. unfold ListNetwork.spread_if.
  destruct (truthy v); [|done]. cbn [lookup_prop]. by rewrite Hne.
Qed.

(** X15. What [listNetwork] prints as the size of a request the finish
    notification of which has been delivered: the encoded length the
    notification carried if that is truthy, and no size at all if it is 0
    (or missing), just as for a request that has not finished. Url, method,
    status, type and timestamp are printed as they were before. *)
Theorem listed_size_follows_finish s k sz n e :
  Net.entity (VStr k) s = Some e ->
  exists e',
    Net.entity (VStr k) (Net.run [(n, Net.frame (Net.Finish k sz))] s) = Some e' /\
    lookup_prop "size" (ListNetwork.object_of e') =
      (if truthy sz then Some sz else None) /\
    forall name, name <> "size" ->
      lookup_prop name (ListNetwork.object_of e') =
      lookup_prop name (ListNetwork.object_of e).
Proof.
  intros (l & Hk & Hl)%entity_Some.
  exists (NetworkRequest.set_size sz e). split.
  - rewrite run_cons, run_nil, deliver_frame, onMessage_Finish, Hk.
    unfold Net.entity. simpl. rewrite Hk. simpl.
    by rewrite list_lookup_alter_eq, Hl.
  - destruct e as [i u m st ty sz0 ts rh rsh].
    unfold ListNetwork.object_of. simpl. split.
    + rewrite !lookup_prop_app.
      rewrite !lookup_spread_if_other by discriminate.
      unfold ListNetwork.spread_if. by destruct (truthy sz).
    + intros name Hname. f_equal. f_equal. rewrite !lookup_prop_app.
      destruct (lookup_prop name (ListNetwork.spread_if "status" st)); [done|].
      destruct (lookup_prop name (ListNetwork.spread_if "type" ty)); [done|].
      by rewrite !lookup_spread_if_other by congruence.
Qed.
End ListingMore.

Lemma listed_size_follows_finish_witness :
  let s := Net.run [(0, Net.frame (Net.Response "r1" [("status", VNum 304)]))]
             Net.init in
  is_Some (Net.entity (VStr "r1") s) /\
  exists e',
    Net.entity (VStr "r1") (Net.run [(1, Net.frame (Net.Finish "r1" (VNum 0)))] s) =
      Some e' /\
    lookup_prop "size" (ListNetwork.object_of e') = None.
Proof.
  intros s. split; [by eexists|].
  destruct (listed_size_follows_finish s "r1" (VNum 0) 1 _ eq_refl)
    as (e' & He' & Hsize & _).
  exists e'. split; [exact He' | exact Hsize].
Defined.

(** ** The page commands and the configuration file *)

Section PagesMore.
Import Page Pages PageCommands.


Lemma findPage_finds cdpUrl directory sel :
  ok directory = true -> Exists (eligible sel) (json directory) ->
  exists p, (findPage cdpUrl directory sel).2 = Normal p.
Proof.
  intros Hok Hex. unfold findPage, getPages. simpl. rewrite Hok. simpl.
  rewrite find_filter.
  destruct (List.find _ _) as [q|] eqn:E; [by eexists|].
  apply find_none in E. apply Exists_exists in Hex as (p & Hin & Hp).
  rewrite Forall_forall in E. apply matches_page_spec in Hp.
  rewrite (E p Hin) in Hp. discriminate.
Qed.


(** X17. [findPage] beyond the matching rule. When the directory does not
    answer with success, every lookup throws 'Failed to fetch pages' with
    the status text, whatever the body lists, and the command opens no
    channel. When it does, the empty selector selects the first entry of
    type 'page'; and the id of an entry of type 'page' always selects some
    page. *)
Theorem findPage_edges cdpUrl directory :
  (ok directory = false -> forall sel,
     (findPage cdpUrl directory sel).2 =
       Throw (Error ("Failed to fetch pages: " +:+ statusText directory)) /\
     (openPage cdpUrl directory sel).1 = [Fetch (cdpUrl +:+ "/json")]) /\
  (ok directory = true ->
   (findPage cdpUrl directory "").2 =
     match List.find (fun p => String.eqb (type p) "page") (json directory) with
     | Some p => Normal p
     | None => Throw (Error "Page not found: ")
     end /\
   forall p, p ∈ json directory -> type p = "page" ->
     exists q, (findPage cdpUrl directory (id p)).2 = Normal q).
Proof.
  split.
  - intros Hok sel. unfold openPage, findPage, getPages. simpl. by rewrite Hok.
  - intros Hok. split.
    + unfold findPage, getPages. simpl. rewrite Hok. simpl. rewrite find_filter.
      induction (json directory) as [|p ps IH]; [done|]. cbn [List.find].
      assert (matches "" p = true) as ->.
      { unfold matches. apply orb_true_iff. right.
        apply includes_spec. by exists "", (title p). }
      rewrite andb_true_r. by destruct (String.eqb (type p) "page").
    + intros p Hin Hty. apply findPage_finds; [done|].
      apply Exists_exists. exists p. split; [done|]. split; [done|by left].
Qed.
End PagesMore.

Section NavigateMore.
Import PageCommands.




End NavigateMore.

Section ConfigMore.
Context `{JSRuntime}.
Import Config.

Lemma findConfig_skips fs below d :
  (forall n, (n < length below)%nat -> fs (drop n (below ++ d)) = Missing) ->
  findConfig fs (below ++ d) = findConfig fs d.
Proof.
  induction below as [|seg below IH]; intros Hmiss; [done|].
  assert (fs (seg :: below ++ d) = Missing) as Hhere.
  { apply (Hmiss 0%nat). simpl. lia. }
  simpl. rewrite Hhere.
  apply IH. intros n Hn. apply (Hmiss (S n)). simpl. lia.
Qed.

(** X19. [findConfig] lets the nearest directory that has a
    [.cdp-cli.json] decide, from the start directory upwards: its content is
    the result if it parses; if it does not, the search fails with
    'Failed to parse' and the path of that file, and no directory further up
    is looked at, even if one there holds a good file. If no directory up to
    the root has the file, the result is [null]. *)
Theorem nearest_config_decides fs below d :
  (forall n, (n < length below)%nat -> fs (drop n (below ++ d)) = Missing) ->
  (forall config, fs d = Content config ->
     findConfig fs (below ++ d) = Normal config) /\
  (forall message, fs d = Broken message ->
     findConfig fs (below ++ d) =
     Throw (Error ("Failed to parse " +:+ configPath d +:+ ": " +:+ message))) /\
  (d = [] -> fs [] = Missing -> findConfig fs (below ++ d) = Normal VNull).
Proof.
  intros Hmiss. rewrite (findConfig_skips _ _ _ Hmiss). repeat split.
  - intros config Hd. destruct d; simpl; by rewrite Hd.
  - intros message Hd. destruct d; simpl; by rewrite Hd.
  - intros -> Hd. simpl. by rewrite Hd.
Qed.


End ConfigMore.

(** *** Concrete runs *)

(** X17: the directory answers 503, although its body lists 'page1'. *)
Lemma findPage_edges_witness :
  let directory := Pages.mkResponse false "Service Unavailable"
                     (Pages.json sample_directory) in
  Pages.ok directory = false /\
  (Pages.findPage "http://localhost:9222" directory "page1").2 =
    Throw (Error "Failed to fetch pages: Service Unavailable").
Proof.
  intros directory. split; [reflexivity|].
  exact (proj1 (proj1 (findPage_edges "http://localhost:9222" directory)
                  eq_refl "page1")).
Defined.


(** X19: started in /home/proj/src; /home/proj has a file that does not
    parse, and the root has a good one. *)
Lemma nearest_config_decides_witness :
  let fs := fun d : Config.dir =>
              match d with
              | ["proj"; "home"] => Config.Broken "Unexpected end of JSON input"
              | [] => Config.Content (VObj [("cdpPort", VNum 9224)])
              | _ => Config.Missing
              end in
  (forall n, (n < length ["src"])%nat ->
     fs (drop n (["src"] ++ ["proj"; "home"])) = Config.Missing) /\
  Config.findConfig fs (["src"] ++ ["proj"; "home"]) =
    Throw (Error ("Failed to parse /home/proj/.cdp-cli.json: " +:+
                  "Unexpected end of JSON input")).
Proof.
  intros fs.
  assert (forall n, (n < length ["src"])%nat ->
            fs (drop n (["src"] ++ ["proj"; "home"])) = Config.Missing) as Hmiss.
  { intros [|n] Hn; [reflexivity|]. simpl in Hn. lia. }
  split; [exact Hmiss|].
  exact (proj1 (proj2 (nearest_config_decides fs ["src"] ["proj"; "home"] Hmiss))
           "Unexpected end of JSON input" eq_refl).
Defined.



(** ** The order of console retrieval *)

Section ConsoleOrder.
Context `{JSRuntime}.
Import ConsoleMessage Console ConsoleView NetView.

Lemma JsMap_elem_get {V} (m : JsMap.t V) k v :
  sameValueZero k k = true ->
  NoDup (JsMap.keys m) -> (k, v) ∈ m -> JsMap.get k m = Some v.
Proof.
  intros Hk. unfold JsMap.keys.
  induction m as [|[k' v'] m IH]; intros Hnd Hin.
  - by apply elem_of_nil in Hin.
  - rewrite fmap_cons in Hnd. apply NoDup_cons in Hnd as [Hk' Hnd].
    simpl. apply elem_of_cons in Hin as [[= <- <-]|Hin].
    + by rewrite Hk.
    + destruct (sameValueZero k' k) eqn:E; [|by apply IH].
      apply sameValueZero_eq in E. subst k'. destruct Hk'.
      apply list_elem_of_fmap. by exists (k, v).
Qed.

Lemma entries_cons tk data ds :
  entries ((tk, data) :: ds) =
  match entry_of tk data with Some e => [e] | None => [] end ++ entries ds.
Proof.
  unfold entries. change ((tk, data) :: ds) with ([(tk, data)] ++ ds).
  rewrite omap_app. simpl. by destruct (entry_of tk data).
Qed.

Lemma console_run_keys ds m seen :
  (forall k, k ∈ seen <-> VStr k ∈ JsMap.keys m) ->
  JsMap.keys (run ds m) =
  JsMap.keys m ++ (VStr <$> first_seen seen (id <$> entries ds)).
Proof.
  revert m seen. induction ds as [|[tk data] ds IH]; intros m seen Hseen.
  { simpl. by rewrite app_nil_r. }
  change (run ((tk, data) :: ds) m) with (run ds (deliver m (tk, data))).
  rewrite entries_cons, deliver_entry.
  destruct (entry_of tk data) as [e|]; [|by apply IH].
  change ([e] ++ entries ds) with (e :: entries ds).
  rewrite (fmap_cons id). cbn [first_seen]. unfold store.
  pose proof (JsMap_get_keys m (VStr (id e)) (sameValueZero_str_refl _)) as Hk.
  destruct (bool_decide_reflect (id e ∈ seen)) as [Hin|Hout].
  - apply Hseen, Hk in Hin as [e0 He0].
    pose proof (JsMap_set_present_keys m (VStr (id e)) e e0 He0) as Hkeys.
    rewrite (IH _ seen); [by rewrite Hkeys|].
    intros k'. by rewrite Hkeys.
  - assert (JsMap.get (VStr (id e)) m = None) as Hnone.
    { destruct (JsMap.get (VStr (id e)) m) eqn:E; [|done].
      destruct Hout. apply Hseen, Hk. by eexists. }
    assert (JsMap.keys (JsMap.set (VStr (id e)) e m) =
            JsMap.keys m ++ [VStr (id e)]) as Hkeys.
    { rewrite JsMap_set_absent by done. unfold JsMap.keys. by rewrite fmap_app. }
    rewrite (IH _ (id e :: seen)).
    + rewrite Hkeys, fmap_cons. by rewrite <- app_assoc.
    + intros k'. rewrite Hkeys, elem_of_cons, elem_of_app, Hseen.
      rewrite list_elem_of_singleton.
      split; (intros [Ha|Hb]; [right|left]); congruence.
Qed.

Lemma values_of_keys (es : list ConsoleMessage.t) (m : JsMap.t ConsoleMessage.t)
    (ks : list string) :
  JsMap.keys m = VStr <$> ks ->
  Forall (fun kv => kv.1 = VStr (id kv.2) /\
                    last (with_id (id kv.2) es) = Some kv.2) m ->
  JsMap.values m = omap (fun k => last (with_id k es)) ks.
Proof.
  unfold JsMap.keys, JsMap.values. intros Hks Hm. revert ks Hks.
  induction Hm as [|[k e] m [Hk He] Hm IH]; intros [|k0 ks] Hks;
    try discriminate Hks; [done|].
  cbn in Hks, Hk, He |- *. injection Hks as Hk0 Hks.
  rewrite Hk in Hk0. injection Hk0 as <-.
  rewrite He. f_equal. by apply IH.
Qed.

(** C9, as the code has it. For every sequence of frames, retrieval returns
    one entry per id that was drawn, in the order in which the ids were first
    drawn, and under each id the latest entry that was given it: an entry
    whose id repeats an earlier one takes the place of that entry. So when
    the ids drawn are pairwise different, retrieval returns all the entries
    in the order in which their notifications arrived. The type filter keeps
    exactly the entries of the requested type, each as it was, in the order
    they had. *)
Theorem console_order_and_filter :
  (forall ds,
     getConsoleMessages (run ds JsMap.empty) = retained (entries ds)) /\
  (forall ds,
     NoDup (id <$> entries ds) ->
     getConsoleMessages (run ds JsMap.empty) = entries ds) /\
  (forall ty messages,
     sublist (filterByType ty messages) messages /\
     forall m, m ∈ filterByType ty messages <->
               m ∈ messages /\
               (forall t, ty = Some t -> t <> "" -> type m = VStr t)).
Proof.
  split; [|split; [apply run_distinct_ids | apply filterByType_projection]].
  intros ds. unfold getConsoleMessages, retained.
  apply values_of_keys.
  - rewrite (console_run_keys ds JsMap.empty []); [done|].
    intros k. split; [by intros ?%elem_of_nil|].
    simpl. by intros ?%elem_of_nil.
  - pose proof (run_keys_NoDup ds JsMap.empty (NoDup_nil_2)) as Hnd.
    pose proof (run_stored_id ds JsMap.empty (Forall_nil_2 _)) as Hid.
    apply Forall_forall. intros [k e] Hin.
    rewrite Forall_forall in Hid. pose proof (Hid _ Hin) as Hk. simpl in Hk.
    split; [done|]. simpl.
    pose proof (run_latest ds (id e) JsMap.empty) as Hl.
    rewrite (JsMap_elem_get _ _ e (sameValueZero_str_refl _) Hnd) in Hl
      by (by rewrite <- Hk).
    by destruct (last (with_id (id e) (entries ds))).
Qed.
End ConsoleOrder.

(** C9: three console calls; the host gives the third the id of the first.
    Retrieval returns the third and then the second, and the first is
    gone. *)
Lemma repeated_id_replaces_entry :
  let log text := Json (VObj [("method", VStr "Runtime.consoleAPICalled");
                              ("params", VObj [("type", VStr "log");
                                               ("args", VArr [VObj [("value", VStr text)]]);
                                               ("timestamp", VNum 5)])]) in
  let ds := [(mkTick 100 "aaaaaaaaa" 100, log "first");
             (mkTick 100 "bbbbbbbbb" 100, log "second");
             (mkTick 100 "aaaaaaaaa" 100, log "third")] in
  ConsoleMessage.text <$> Console.entries ds =
    [VStr "first"; VStr "second"; VStr "third"] /\
  ConsoleMessage.text <$> Console.getConsoleMessages (Console.run ds JsMap.empty) =
    [VStr "third"; VStr "second"].
Proof. by vm_compute. Qed.

Lemma console_order_and_filter_witness :
  let log text := Json (VObj [("method", VStr "Runtime.consoleAPICalled");
                              ("params", VObj [("type", VStr "log");
                                               ("args", VArr [VObj [("value", VStr text)]]);
                                               ("timestamp", VNum 5)])]) in
  let ds := [(mkTick 100 "aaaaaaaaa" 100, log "first");
             (mkTick 100 "bbbbbbbbb" 100, log "second")] in
  NoDup (ConsoleMessage.id <$> Console.entries ds) /\
  ConsoleMessage.text <$> Console.getConsoleMessages (Console.run ds JsMap.empty) =
  [VStr "first"; VStr "second"].
Proof.
  intros log ds.
  assert (NoDup (ConsoleMessage.id <$> Console.entries ds)) as Hnd.
  { apply (bool_decide_unpack _). by vm_compute. }
  split; [exact Hnd|].
  rewrite (proj1 (proj2 console_order_and_filter) ds Hnd). reflexivity.
Defined.
